(** * Bulk SMS sender (bulk_sms1.py): a shallow embedding and its properties

    The script reads recipients and a message from two text files and then
    replays a fixed UI macro on an Android device through a view client.
    The embedding has three layers:

    - [PyStr]: the few Python string operations the script relies on;
    - the input loader ([get_phone_numbers], [get_message]), pure functions
      over a file system and the phone-number library;
    - the UI macro ([go_back_to_main_screen], [send_sms], [delete_last_sms],
      [main]), written in a state-and-exception monad over an arbitrary
      device that records every call the script makes in a trace. *)

From Stdlib Require Import ZArith Ascii Lia.
From stdpp Require Import base decidable option list gmap sets strings pretty sorting.

Local Open Scope Z_scope.

(** ** Python string operations *)

Module PyStr.

(** [str.isspace] on the ASCII range: TAB, LF, VT, FF, CR, the four
    separators FS..US and the space.  Strings are byte strings (UTF-8), so
    whitespace outside ASCII is not recognised by this model. *)
Definition isspace (c : ascii) : bool :=
  match c with
  | "009" | "010" | "011" | "012" | "013"
  | "028" | "029" | "030" | "031" | " " => true
  | _ => false
  end%char.

Fixpoint lstrip (s : string) : string :=
  match s with
  | EmptyString => EmptyString
  | String c s' => if isspace c then lstrip s' else s
  end.

Fixpoint rstrip (s : string) : string :=
  match s with
  | EmptyString => EmptyString
  | String c s' =>
      match rstrip s' with
      | EmptyString => if isspace c then EmptyString else String c EmptyString
      | r => String c r
      end
  end.

(** [s.strip()] *)
Definition strip (s : string) : string := rstrip (lstrip s).

Fixpoint startswith (p s : string) : bool :=
  match p, s with
  | EmptyString, _ => true
  | String a p', String b s' => if decide (a = b) then startswith p' s' else false
  | String _ _, EmptyString => false
  end.

(** [sub in s] *)
Fixpoint contains (sub s : string) : bool :=
  startswith sub s ||
  match s with
  | EmptyString => false
  | String _ s' => contains sub s'
  end.

(** [s.replace(c, '')] for a one-character [c] *)
Fixpoint remove_char (c : ascii) (s : string) : string :=
  match s with
  | EmptyString => EmptyString
  | String a s' => if decide (a = c) then remove_char c s' else String a (remove_char c s')
  end.

Fixpoint drop (n : nat) (s : string) : string :=
  match n, s with
  | O, _ => s
  | S n', String _ s' => drop n' s'
  | S _, EmptyString => EmptyString
  end.

(** [s[-n:]] for [n > 0]: the last [n] characters, the whole string when it
    is shorter *)
Definition last_chars (n : nat) (s : string) : string :=
  drop (String.length s - n)%nat s.

End PyStr.

(** ** Input loader *)

(** What a start-up function does: it hands back a value, or it ends the
    process through [sys.exit(code)] after a message on standard error. *)
Inductive startup (A : Type) : Type :=
| Loaded (a : A)
| SysExit (code : Z) (stderr : string).
Arguments Loaded {A} a.
Arguments SysExit {A} code stderr.

(** The [phonenumbers] package: [parse(line, None)] either yields a number
    or raises [NumberParseException] (here [None]); [format_number(n, E164)]
    renders the canonical form. *)
Class PhoneNumbers := {
  PhoneNumber : Type;
  parse : string -> option PhoneNumber;
  format_E164 : PhoneNumber -> string
}.

(** A text file is the list of its lines as file iteration yields them;
    a path with no file raises [FileNotFoundError] on [open]. *)
Definition filesystem := string -> option (list string).

(** [f.readline()] on a freshly opened file *)
Definition readline (f : list string) : string := hd EmptyString f.

Section InputLoader.
Context `{PhoneNumbers}.
Variable fs : filesystem.

(** One pass of the loop of [get_phone_numbers] over a stripped line. *)
Definition add_line (phone_numbers : gset string) (line : string) : gset string :=
  if decide (line = EmptyString) then phone_numbers
  else match parse line with
       | Some n => {[ format_E164 n ]} ∪ phone_numbers
       | None => phone_numbers
       end.

Definition get_phone_numbers (file_path : string) : startup (list string) :=
  match fs file_path with
  | None => SysExit 1 ("Oops, file not found: " +:+ file_path)
  | Some f =>
      let phone_numbers := foldl add_line ∅ (PyStr.strip <$> f) in
      if decide (phone_numbers = ∅)
      then SysExit 2 "Oops, no valid phone numbers!"
      else Loaded (merge_sort String.le (elements phone_numbers))
  end.

Definition get_message (file_path : string) : startup string :=
  match fs file_path with
  | None => SysExit 1 ("Oops, file not found: " +:+ file_path)
  | Some f =>
      let line := PyStr.strip (readline f) in
      if decide (line = EmptyString) then SysExit 3 "Content file is empty!"
      else Loaded line
  end.

End InputLoader.

(** ** The device session and the script's observable actions *)

(** Identifiers of the Messages UI, as in the script. *)
Definition MESSAGES_PACKAGE : string := "com.google.android.apps.messaging".
Definition CONFIRM_ID : string := "android:id/button1".
Definition DELETE_CHAT_ID : string := MESSAGES_PACKAGE +:+ ":id/action_delete".
Definition LAST_CHAT_ID : string := MESSAGES_PACKAGE +:+ ":id/swipeableContainer".
Definition START_CHAT_ID : string := MESSAGES_PACKAGE +:+ ":id/start_chat_fab".
Definition CONTACT_SEARCH_FIELD : string := "ContactSearchField".
Definition COMPOSE_DRAFT_SEND_ID : string := "Compose:Draft:Send".
Definition CONTACT_SUGGESTION_SELECTOR : string := "ContactSuggestionList".

Definition KEYCODE_BACK : string := "input keyevent KEYCODE_BACK".
Definition KEYCODE_ENTER : string := "input keyevent KEYCODE_ENTER".
Definition KEYCODE_CTRL_A : string := "input keyevent KEYCODE_CTRL_A".

(** [f"am start -n {MESSAGES_PACKAGE}/.ui.ConversationListActivity"] *)
Definition am_start : string :=
  "am start -n " +:+ MESSAGES_PACKAGE +:+ "/.ui.ConversationListActivity".

(** [f"input text '{s}'"] *)
Definition input_text (s : string) : string := "input text '" +:+ s +:+ "'".

(** A view of a snapshot, with the attributes the script reads:
    [getText()] and [getXY()]. *)
Record View := {
  view_id : string;
  getText : option string;
  getXY : Z * Z
}.

(** Exceptions below [Exception], the ones an [except Exception] clause
    catches.  [ViewClientError] stands for whatever the automation library
    raises; the script itself raises only the [RuntimeError] of [send_sms].
    Interrupts and a process exit started inside the library are not part
    of the model. *)
Inductive exn :=
| RuntimeError (msg : string)
| ViewClientError (msg : string)
| ValueError (msg : string)
| ZeroDivisionError (msg : string).

(** [str(e)] *)
Definition str (e : exn) : string :=
  match e with
  | RuntimeError m | ViewClientError m | ValueError m | ZeroDivisionError m => m
  end.

(** The lines the script prints, one constructor per [print] (a few
    adjacent prints of [main] are grouped); interpolated values are the
    arguments. *)
Inductive Msg :=
(* go_back_to_main_screen *)
| MsgNavigatingBack            (* "Navigating back to main screen..." *)
| MsgFirstBackPress            (* "First back button press..." *)
| MsgHardwareBackFirst         (* "Using hardware back key (first press)..." *)
| MsgSecondBackPress           (* "Second back button press..." *)
| MsgHardwareBackSecond        (* "Using hardware back key (second press)..." *)
| MsgReturnedToMain            (* "Successfully returned to main Messages screen" *)
| MsgMayNotBeAtMain            (* "Warning: May not be at main screen yet" *)
| MsgErrorNavigatingBack (e : string)   (* "Error navigating back: {e}" *)
| MsgFallbackHardwareBack      (* "Fallback: Using hardware back keys..." *)
(* send_sms *)
| MsgNoStartChat (attempt max_retries : nat)
      (* "Could not find Start Chat button (attempt {a}/{m}). Retrying..." *)
| MsgStartingNewChat           (* "Starting new chat..." *)
| MsgNoContactField (attempt max_retries : nat)
      (* "Could not find contact search field (attempt {a}/{m}). Retrying..." *)
| MsgEnteringPhone (phone_number : string)  (* "Entering phone number: {p}" *)
| MsgPressingEnter             (* "Pressing Enter to proceed to conversation..." *)
| MsgFoundSuggestion           (* "Found contact suggestion, selecting..." *)
| MsgTypingMessage (message : string)       (* "Typing message: {m}" *)
| MsgLookingForSend            (* "Looking for send button..." *)
| MsgSendingViaButton          (* "Sending message via button..." *)
| MsgFallbackEnterToSend       (* "Fallback: pressing Enter to send..." *)
| MsgSentSuccessfully          (* "Message sent successfully" *)
| MsgSavedAsDraft              (* "Message saved as draft" *)
| MsgErrorOnAttempt (attempt : nat) (e : string)  (* "Error on attempt {a}: {e}" *)
| MsgRetryingAfterError        (* "Retrying after error..." *)
(* delete_last_sms *)
| MsgNoConversation            (* "Could not find conversation to delete" *)
| MsgConversationDeleted       (* "Conversation deleted" *)
| MsgNoDeleteConfirmation      (* "Could not find delete confirmation" *)
| MsgNoDeleteButton            (* "Could not find delete button" *)
| MsgErrorDeleting (e : string)             (* "Error deleting conversation: {e}" *)
(* main *)
| MsgBanner                    (* the five header lines *)
| MsgConfiguration (numbers : nat) (message : string) (draft delete : bool)
                   (delay : Z) (serialno : option string)
| MsgConnecting                (* "Connecting to Android device..." *)
| MsgConnected                 (* "Device connected successfully" *)
| MsgOpening                   (* "Opening Google Messages app..." *)
| MsgLaunched                  (* "Messages app launched" *)
| MsgStarting                  (* blank line, "Starting bulk SMS sending process...", rule *)
| MsgProcessing (phone_number : string)     (* progress bar: "Processing {p}" *)
| MsgReturning                 (* "Returning to main Messages screen..." *)
| MsgDeleting                  (* "Deleting conversation..." *)
| MsgWaiting (delay : Z)       (* "Waiting {delay} seconds before next message..." *)
| MsgFailedToSend (phone_number e : string) (* "Failed to send to {p}: {e}" *)
| MsgAttemptingRecover         (* "Attempting to recover to main screen..." *)
| MsgCompleted (success_count total : nat)
      (* rule, "BULK SMS PROCESS COMPLETED", "Successfully processed: {s}/{t} messages" *)
| MsgSuccessRate (success_count total : nat)  (* "Success rate: {s / t * 100:.1f}%" *)
| MsgFailedMessages (failed : nat)          (* "Failed messages: {t - s}" *)
| MsgAllDone                   (* blank line, "All done! ...", rule *)
| MsgCritical (e : string).    (* "Critical error: {e}", "... terminated unexpectedly", rule *)

(** Everything the script does to the outside world, in order. *)
Inductive Event :=
| EDump
| EFindViewById (id : string)
| EFindViewsContainingText (text : string)
| EFindViewsWithContentDescriptionRe (re : string)
| EFindViewsWithAttribute (attr : string) (value : bool)
| ETouch (v : View)
| EShell (cmd : string)
| EDrag (src dst : Z * Z) (duration steps : Z)
| EConnect (serialno : option string)
| ESleep (ms : Z)
| EPrint (m : Msg)
| EStderr (s : string).

(** What a call into the automation library gives back: a value, or an
    exception with its message. *)
Inductive reply (A : Type) : Type :=
| Fine (a : A)
| Fails (msg : string).
Arguments Fine {A} a.
Arguments Fails {A} msg.

(** The view client over a connected device (the [ViewClient] object and
    its [device]).  A lookup that finds nothing answers [None] or [[]];
    every call may instead raise. *)
Class ViewClient (Dev : Type) := {
  vc_connectToDeviceOrExit : option string -> Dev -> Dev * reply unit;
  vc_dump : Dev -> Dev * reply unit;
  vc_findViewById : string -> Dev -> Dev * reply (option View);
  vc_findViewsContainingText : string -> Dev -> Dev * reply (list View);
  vc_findViewsWithContentDescriptionRe : string -> Dev -> Dev * reply (list View);
  vc_findViewsWithAttribute : string -> bool -> Dev -> Dev * reply (list View);
  vc_touch : View -> Dev -> Dev * reply unit;
  vc_shell : string -> Dev -> Dev * reply unit;
  vc_drag : Z * Z -> Z * Z -> Z -> Z -> Dev -> Dev * reply unit
}.

(** ** The monad of the script: device state, trace and exceptions *)

Inductive outcome (A : Type) : Type :=
| Ok (a : A)
| Raise (e : exn).
Arguments Ok {A} a.
Arguments Raise {A} e.

Definition M (Dev A : Type) : Type := Dev -> Dev * list Event * outcome A.

Section Monad.
Context {Dev : Type}.

Definition ret {A} (a : A) : M Dev A := fun d => (d, [], Ok a).

Definition bind {A B} (m : M Dev A) (f : A -> M Dev B) : M Dev B :=
  fun d =>
    match m d with
    | (d1, t1, Ok a) => let '(d2, t2, r) := f a d1 in (d2, t1 ++ t2, r)
    | (d1, t1, Raise e) => (d1, t1, Raise e)
    end.

Definition raise {A} (e : exn) : M Dev A := fun d => (d, [], Raise e).

(** [try: m  except Exception as e: h e] *)
Definition try_catch {A} (m : M Dev A) (h : exn -> M Dev A) : M Dev A :=
  fun d =>
    match m d with
    | (d1, t1, Ok a) => (d1, t1, Ok a)
    | (d1, t1, Raise e) => let '(d2, t2, r) := h e d1 in (d2, t1 ++ t2, r)
    end.

(** A call into the library: it is recorded, then answered by the device. *)
Definition call {A} (ev : Event) (op : Dev -> Dev * reply A) : M Dev A :=
  fun d =>
    match op d with
    | (d1, Fine a) => (d1, [ev], Ok a)
    | (d1, Fails msg) => (d1, [ev], Raise (ViewClientError msg))
    end.

Definition print (m : Msg) : M Dev unit := fun d => (d, [EPrint m], Ok tt).

(** [time.sleep], in milliseconds; a negative length raises [ValueError]. *)
Definition sleep (ms : Z) : M Dev unit :=
  if decide (ms < 0) then raise (ValueError "sleep length must be non-negative")
  else fun d => (d, [ESleep ms], Ok tt).

End Monad.

Notation "x <- m ;; k" := (bind m (fun x => k))
  (at level 100, m at next level, right associativity).
Notation "m ;; k" := (bind m (fun _ => k))
  (at level 100, right associativity).

(** The trace and the result of a run. *)
Definition trace_of {Dev A} (r : Dev * list Event * outcome A) : list Event := snd (fst r).
Definition result_of {Dev A} (r : Dev * list Event * outcome A) : outcome A := snd r.
Definition state_of {Dev A} (r : Dev * list Event * outcome A) : Dev := fst (fst r).

(** ** The UI macro *)

Definition max_retries : nat := 3.

(** The test of the suggestion loop of [send_sms]: the suggestion has a
    text, and the text holds the last ten characters of the number or the
    words "Send to". *)
Definition suggestion_matches (phone_number : string) (suggestion : View) : bool :=
  match getText suggestion with
  | Some text =>
      if decide (text = EmptyString) then false
      else PyStr.contains (PyStr.last_chars 10 phone_number) text
           || PyStr.contains "Send to" text
  | None => false
  end.

(** How one pass through the body of the retry loop ends: [continue], or
    [return True]. *)
Inductive ctl := Continue | ReturnTrue.

Section Script.
Context {Dev : Type} `{ViewClient Dev}.

Definition connectToDeviceOrExit (serialno : option string) : M Dev unit :=
  call (EConnect serialno) (vc_connectToDeviceOrExit serialno).
Definition dump : M Dev unit := call EDump vc_dump.
Definition findViewById (id : string) : M Dev (option View) :=
  call (EFindViewById id) (vc_findViewById id).
Definition findViewsContainingText (text : string) : M Dev (list View) :=
  call (EFindViewsContainingText text) (vc_findViewsContainingText text).
Definition findViewsWithContentDescriptionRe (re : string) : M Dev (list View) :=
  call (EFindViewsWithContentDescriptionRe re) (vc_findViewsWithContentDescriptionRe re).
Definition findViewsWithAttribute (attr : string) (value : bool) : M Dev (list View) :=
  call (EFindViewsWithAttribute attr value) (vc_findViewsWithAttribute attr value).
Definition touch (v : View) : M Dev unit := call (ETouch v) (vc_touch v).
Definition shell (cmd : string) : M Dev unit := call (EShell cmd) (vc_shell cmd).
Definition drag (src dst : Z * Z) (duration steps : Z) : M Dev unit :=
  call (EDrag src dst duration steps) (vc_drag src dst duration steps).

Definition open_messages : M Dev unit :=
  shell am_start;;
  sleep 3000.

(** One back navigation of [go_back_to_main_screen] (lines 116-126 and
    129-139, which differ in the two lines they print): tap the first
    "Back" view of a fresh snapshot, else send the back key. *)
Definition press_back (tapping hardware : Msg) : M Dev unit :=
  dump;;
  back_elements <- findViewsWithContentDescriptionRe "Back";;
  match back_elements with
  | b :: _ => print tapping;; touch b;; sleep 2000
  | [] => print hardware;; shell KEYCODE_BACK;; sleep 2000
  end.

(** Lines 142-154: look for the Start Chat button, by id, else by text. *)
Definition verify_main_screen : M Dev bool :=
  dump;;
  start_chat <- findViewById START_CHAT_ID;;
  start_chat <- match start_chat with
                | Some v => ret (Some v)
                | None =>
                    start_chat_elements <- findViewsContainingText "Start chat";;
                    ret (head start_chat_elements)
                end;;
  match start_chat with
  | Some _ => print MsgReturnedToMain;; ret true
  | None => print MsgMayNotBeAtMain;; ret false
  end.

(** The two navigations of the [try] of [go_back_to_main_screen]. *)
Definition back_twice : M Dev unit :=
  print MsgNavigatingBack;;
  press_back MsgFirstBackPress MsgHardwareBackFirst;;
  press_back MsgSecondBackPress MsgHardwareBackSecond.

(** The body of the [try] of [go_back_to_main_screen] (lines 113-154),
    its [except] clause (lines 157-164), and the function. *)
Definition go_back_body : M Dev bool :=
  back_twice;;
  verify_main_screen.

Definition go_back_fallback (e : exn) : M Dev bool :=
  print (MsgErrorNavigatingBack (str e));;
  print MsgFallbackHardwareBack;;
  shell KEYCODE_BACK;;
  sleep 2000;;
  shell KEYCODE_BACK;;
  sleep 2000;;
  ret false.

Definition go_back_to_main_screen : M Dev bool :=
  try_catch go_back_body go_back_fallback.

(** [for _ in range(n): m] *)
Fixpoint repeat_times (n : nat) (m : M Dev unit) : M Dev unit :=
  match n with
  | O => ret tt
  | S n' => m;; repeat_times n' m
  end.

Section SendSms.
Variables (phone_number message : string) (draft : bool).

(** The body of the [try] of one attempt (lines 174-263). *)
Definition attempt_body (attempt : nat) : M Dev ctl :=
  dump;;
  start_chat <- findViewById START_CHAT_ID;;
  start_chat <- match start_chat with
                | Some v => ret (Some v)
                | None =>
                    start_chat_elements <- findViewsContainingText "Start chat";;
                    ret (head start_chat_elements)
                end;;
  match start_chat with
  | None =>
      print (MsgNoStartChat (attempt + 1) max_retries);;
      sleep 2000;;
      ret Continue
  | Some start_chat =>
      print MsgStartingNewChat;;
      touch start_chat;;
      sleep 3000;;
      dump;;
      contact_field <- findViewById CONTACT_SEARCH_FIELD;;
      match contact_field with
      | None =>
          print (MsgNoContactField (attempt + 1) max_retries);;
          sleep 2000;;
          ret Continue
      | Some contact_field =>
          print (MsgEnteringPhone phone_number);;
          touch contact_field;;
          sleep 1000;;
          shell KEYCODE_CTRL_A;;
          sleep 500;;
          shell (input_text (PyStr.remove_char "+" phone_number));;
          sleep 3000;;
          print MsgPressingEnter;;
          shell KEYCODE_ENTER;;
          sleep 3000;;
          dump;;
          suggestion_list <- findViewById CONTACT_SUGGESTION_SELECTOR;;
          match suggestion_list with
          | Some _ =>
              suggestions <- findViewsWithAttribute "clickable" true;;
              match List.find (suggestion_matches phone_number) suggestions with
              | Some suggestion =>
                  print MsgFoundSuggestion;; touch suggestion;; sleep 3000
              | None => shell KEYCODE_ENTER;; sleep 3000
              end
          | None => ret tt
          end;;
          sleep 2000;;
          dump;;
          print (MsgTypingMessage message);;
          shell (input_text message);;
          sleep 2000;;
          (if negb draft then
             print MsgLookingForSend;;
             dump;;
             send_button <- findViewById COMPOSE_DRAFT_SEND_ID;;
             match send_button with
             | Some send_button => print MsgSendingViaButton;; touch send_button
             | None => print MsgFallbackEnterToSend;; shell KEYCODE_ENTER
             end;;
             sleep 3000;;
             print MsgSentSuccessfully
           else print MsgSavedAsDraft);;
          ret ReturnTrue
      end
  end.

(** The [except Exception as e] clause of an attempt (lines 265-275). *)
Definition attempt_except (attempt : nat) (e : exn) : M Dev ctl :=
  print (MsgErrorOnAttempt (attempt + 1) (str e));;
  (if decide (attempt < max_retries - 1)%nat then
     print MsgRetryingAfterError;;
     sleep 2000;;
     repeat_times 3 (shell KEYCODE_BACK;; sleep 1000);;
     sleep 2000
   else ret tt);;
  ret Continue.

Definition attempt_step (attempt : nat) : M Dev ctl :=
  try_catch (attempt_body attempt) (attempt_except attempt).

Definition send_failed : exn :=
  RuntimeError ("Failed to send SMS to " +:+ phone_number +:+ " after "
                +:+ pretty max_retries +:+ " attempts").

(** [for attempt in attempts: ...] followed by the final [raise]. *)
Fixpoint send_sms_loop (attempts : list nat) : M Dev bool :=
  match attempts with
  | [] => raise send_failed
  | attempt :: rest =>
      c <- attempt_step attempt;;
      match c with
      | ReturnTrue => ret true
      | Continue => send_sms_loop rest
      end
  end.

Definition send_sms : M Dev bool := send_sms_loop (seq 0 max_retries).

End SendSms.

Definition delete_last_sms : M Dev unit :=
  try_catch
    (dump;;
     last_chat <- findViewById LAST_CHAT_ID;;
     match last_chat with
     | None => print MsgNoConversation
     | Some last_chat =>
         let coords := getXY last_chat in
         drag coords coords 1000 1;;
         sleep 2000;;
         dump;;
         delete_button <- findViewById DELETE_CHAT_ID;;
         match delete_button with
         | Some delete_button =>
             touch delete_button;;
             sleep 1000;;
             dump;;
             confirm_button <- findViewById CONFIRM_ID;;
             match confirm_button with
             | Some confirm_button =>
                 touch confirm_button;;
                 sleep 2000;;
                 print MsgConversationDeleted
             | None => print MsgNoDeleteConfirmation
             end
         | None => print MsgNoDeleteButton
         end
     end)
    (fun e => print (MsgErrorDeleting (str e))).

Section Main.
Variables (serialno : option string) (draft delete : bool) (delay : Z).
Variable message : string.

(** What follows a successful [send_sms] inside the [try] of the loop
    (lines 391-402); [i] is the index of the recipient and [n] the
    number of recipients. *)
Definition after_send (i n : nat) : M Dev unit :=
  print MsgReturning;;
  go_back_to_main_screen;;
  (if delete then print MsgDeleting;; delete_last_sms else ret tt);;
  (if decide (Z.of_nat i < Z.of_nat n - 1) then
     print (MsgWaiting delay);; sleep (1000 * delay)
   else ret tt).

(** The [except Exception as e] clause of the loop (lines 404-409). *)
Definition recover (phone_number : string) (e : exn) : M Dev unit :=
  print (MsgFailedToSend phone_number (str e));;
  print MsgAttemptingRecover;;
  go_back_to_main_screen;;
  sleep 1000.

(** One pass of the loop of [main] (lines 385-409).  The [try] is split
    where [success_count += 1] sits, so that the counter keeps its
    increment when a later statement of the [try] raises; both halves
    share the one [except] clause. *)
Definition process_recipient (i n : nat) (phone_number : string)
    (success_count : nat) : M Dev nat :=
  print (MsgProcessing phone_number);;
  sent <- try_catch (send_sms phone_number message draft;; ret true)
                    (fun e => recover phone_number e;; ret false);;
  if sent : bool then
    try_catch (after_send i n) (recover phone_number);;
    ret (S success_count)
  else ret success_count.

(** [for i, phone_number in enumerate(phone_numbers)], from index [i]. *)
Fixpoint main_loop (i n : nat) (phone_numbers : list string)
    (success_count : nat) : M Dev nat :=
  match phone_numbers with
  | [] => ret success_count
  | phone_number :: rest =>
      success_count <- process_recipient i n phone_number success_count;;
      main_loop (S i) n rest success_count
  end.

(** The final report (lines 411-419); the rate divides by the number of
    recipients. *)
Definition report (success_count total : nat) : M Dev unit :=
  print (MsgCompleted success_count total);;
  (if decide (total = 0%nat) then raise (ZeroDivisionError "division by zero")
   else print (MsgSuccessRate success_count total));;
  (if decide (success_count < total)%nat
   then print (MsgFailedMessages (total - success_count))
   else ret tt);;
  print MsgAllDone.

(** The outer [try] of [main] (lines 366-419). *)
Definition run (phone_numbers : list string) : M Dev nat :=
  print MsgConnecting;;
  connectToDeviceOrExit serialno;;
  print MsgConnected;;
  print MsgOpening;;
  open_messages;;
  print MsgLaunched;;
  print MsgStarting;;
  success_count <- main_loop 0 (length phone_numbers) phone_numbers 0%nat;;
  report success_count (length phone_numbers);;
  ret success_count.

End Main.

(** [main]: the trace of the whole process and its exit code.  The two
    loaders run before the device is touched; an exception that leaves
    the outer [try] ends the process with code 1, a completed run with
    code 0. *)
Definition main `{PhoneNumbers} (fs : filesystem) (serialno : option string)
    (draft delete : bool) (delay : Z) (d : Dev) : Dev * list Event * Z :=
  match get_phone_numbers fs "numbers.txt" with
  | SysExit code err => (d, [EPrint MsgBanner; EStderr err], code)
  | Loaded phone_numbers =>
      match get_message fs "content.txt" with
      | SysExit code err => (d, [EPrint MsgBanner; EStderr err], code)
      | Loaded message =>
          let config :=
            [EPrint MsgBanner;
             EPrint (MsgConfiguration (length phone_numbers) message draft delete
                                      delay serialno)] in
          match run serialno draft delete delay message phone_numbers d with
          | (d', t, Ok _) => (d', config ++ t, 0)
          | (d', t, Raise e) => (d', config ++ t ++ [EPrint (MsgCritical (str e))], 1)
          end
      end
  end.

End Script.

(** ** A simulated device

    A device whose answers are a function of the number of calls made so
    far and of the call itself; its state is that number. *)
Record behaviour := {
  bh_fails : nat -> Event -> option string;
  bh_by_id : nat -> string -> option View;
  bh_views : nat -> Event -> list View
}.

Definition answer {A} (b : behaviour) (ev : Event) (a : nat -> A) (n : nat) : nat * reply A :=
  (S n, match bh_fails b n ev with
        | Some msg => Fails msg
        | None => Fine (a n)
        end).

Definition simulated (b : behaviour) : ViewClient nat := {|
  vc_connectToDeviceOrExit s := answer b (EConnect s) (fun _ => tt);
  vc_dump := answer b EDump (fun _ => tt);
  vc_findViewById id := answer b (EFindViewById id) (fun n => bh_by_id b n id);
  vc_findViewsContainingText text :=
    answer b (EFindViewsContainingText text)
           (fun n => bh_views b n (EFindViewsContainingText text));
  vc_findViewsWithContentDescriptionRe re :=
    answer b (EFindViewsWithContentDescriptionRe re)
           (fun n => bh_views b n (EFindViewsWithContentDescriptionRe re));
  vc_findViewsWithAttribute attr value :=
    answer b (EFindViewsWithAttribute attr value)
           (fun n => bh_views b n (EFindViewsWithAttribute attr value));
  vc_touch v := answer b (ETouch v) (fun _ => tt);
  vc_shell cmd := answer b (EShell cmd) (fun _ => tt);
  vc_drag src dst duration steps := answer b (EDrag src dst duration steps) (fun _ => tt)
|}.

(** ** Reading a trace *)

(** The values a reading [f] picks out of a trace, in order. *)
Fixpoint collect {A} (f : Event -> option A) (t : list Event) : list A :=
  match t with
  | [] => []
  | ev :: t' =>
      match f ev with
      | Some a => a :: collect f t'
      | None => collect f t'
      end
  end.

(** The attempt numbers announced by the three lines with which an attempt
    of [send_sms] reports that it failed. *)
Definition failed_attempt (ev : Event) : option nat :=
  match ev with
  | EPrint (MsgNoStartChat a _) | EPrint (MsgNoContactField a _)
  | EPrint (MsgErrorOnAttempt a _) => Some a
  | _ => None
  end.
Definition failed_attempts (t : list Event) : list nat := collect failed_attempt t.

(** A raw back-key event. *)
Definition is_back_key (ev : Event) : bool :=
  match ev with
  | EShell cmd => String.eqb cmd KEYCODE_BACK
  | _ => false
  end.
Definition back_keys (t : list Event) : nat := length (List.filter is_back_key t).

(** A back navigation: a tap, or a raw back-key event. *)
Definition is_navigation (ev : Event) : bool :=
  match ev with
  | ETouch _ => true
  | _ => is_back_key ev
  end.


(** What belongs to sending proper: the lookup of the send button and the
    lines printed on the way to the tap, to the fallback key and after. *)
Definition send_related (ev : Event) : bool :=
  match ev with
  | EFindViewById id => String.eqb id COMPOSE_DRAFT_SEND_ID
  | EPrint MsgLookingForSend | EPrint MsgSendingViaButton
  | EPrint MsgFallbackEnterToSend | EPrint MsgSentSuccessfully => true
  | _ => false
  end.

(** The events after the line "Typing message: ...", when it was printed. *)
Fixpoint after_typing (t : list Event) : option (list Event) :=
  match t with
  | [] => None
  | EPrint (MsgTypingMessage _) :: t' => Some t'
  | _ :: t' => after_typing t'
  end.

(** The sends that went through: each ends with one of these two lines. *)
Definition send_completed (ev : Event) : bool :=
  match ev with
  | EPrint MsgSentSuccessfully | EPrint MsgSavedAsDraft => true
  | _ => false
  end.
Definition sends_completed (t : list Event) : nat := length (List.filter send_completed t).

(** The deletions started by [main]: it prints "Deleting conversation..."
    right before each call of [delete_last_sms]. *)
Definition deletion_started (ev : Event) : bool :=
  match ev with
  | EPrint MsgDeleting => true
  | _ => false
  end.
Definition deletions (t : list Event) : nat := length (List.filter deletion_started t).

(** The recipients taken up by the loop of [main], in order. *)
Definition processed_recipient (ev : Event) : option string :=
  match ev with
  | EPrint (MsgProcessing p) => Some p
  | _ => None
  end.
Definition processed (t : list Event) : list string := collect processed_recipient t.

(** The recipients the loop of [main] reported as failed. *)
Definition failed_recipient (ev : Event) : option string :=
  match ev with
  | EPrint (MsgFailedToSend p _) => Some p
  | _ => None
  end.
Definition failed_recipients (t : list Event) : list string := collect failed_recipient t.

(** What belongs to the deletion step and to the delay between messages:
    the two lines that announce them, and the calls only
    [delete_last_sms] makes. *)
Definition deletion_or_delay (ev : Event) : bool :=
  match ev with
  | EPrint MsgDeleting | EPrint (MsgWaiting _)
  | EPrint MsgNoConversation | EPrint MsgConversationDeleted
  | EPrint MsgNoDeleteConfirmation | EPrint MsgNoDeleteButton
  | EPrint (MsgErrorDeleting _) => true
  | EDrag _ _ _ _ => true
  | EFindViewById id =>
      String.eqb id LAST_CHAT_ID || String.eqb id DELETE_CHAT_ID || String.eqb id CONFIRM_ID
  | _ => false
  end.

(** The tallies of the final report: successes and recipients. *)
Definition reported_tally (ev : Event) : option (nat * nat) :=
  match ev with
  | EPrint (MsgCompleted s n) => Some (s, n)
  | _ => None
  end.
Definition reported_tallies (t : list Event) : list (nat * nat) := collect reported_tally t.

(** The events none of the counts of the loop of [main] looks at. *)
Definition tally_neutral (ev : Event) : bool :=
  match ev with
  | EPrint MsgSentSuccessfully | EPrint MsgSavedAsDraft | EPrint MsgDeleting
  | EPrint (MsgProcessing _) | EPrint (MsgFailedToSend _ _) => false
  | _ => true
  end.

(** The line [delete_last_sms] ends with. *)
Definition deletion_report (m : Msg) : Prop :=
  m = MsgNoConversation \/ m = MsgConversationDeleted \/ m = MsgNoDeleteConfirmation
  \/ m = MsgNoDeleteButton \/ exists e, m = MsgErrorDeleting e.

(** The first line of a file that is not blank, as the interface section of
    the specification words the content file. *)
Definition first_non_blank_line (f : list string) : option string :=
  List.find (fun line => negb (String.eqb (PyStr.strip line) EmptyString)) f.

(** ** Device states

    The start-chat lookup of [send_sms] finds nothing in state [d] and
    leaves the device in state [d']: the snapshot is taken, the lookup by
    id answers nothing and so does the lookup by text. *)
Definition start_chat_absent {Dev : Type} `{ViewClient Dev} (d d' : Dev) : Prop :=
  exists d1 d2,
    vc_dump d = (d1, Fine tt)
    /\ vc_findViewById START_CHAT_ID d1 = (d2, Fine None)
    /\ vc_findViewsContainingText "Start chat" d2 = (d', Fine []).


(** The return-to-home navigation returns, whatever the state of the
    device. *)
Definition recovery_returns (Dev : Type) `{ViewClient Dev} : Prop :=
  forall d : Dev, exists b, result_of (go_back_to_main_screen d) = Ok b.

(** ** Statements about runs *)

(** [post m Q]: whatever the device state the computation starts in, its
    trace and its result satisfy [Q]. *)
Definition post {Dev A} (m : M Dev A) (Q : list Event -> outcome A -> Prop) : Prop :=
  forall d, Q (trace_of (m d)) (result_of (m d)).

(** [emits P m]: every event of every run of [m] satisfies [P]. *)
Definition emits {Dev} (P : Event -> Prop) {A} (m : M Dev A) : Prop :=
  post m (fun t _ => Forall P t).

(** How a draft attempt goes on once it has announced the message. *)
Definition draft_ending (message : string) (t : list Event) (r : outcome ctl) : Prop :=
  match r with
  | Ok ReturnTrue =>
      after_typing t = Some [EShell (input_text message); ESleep 2000;
                             EPrint MsgSavedAsDraft]
  | Ok Continue => after_typing t = None
  | Raise _ => after_typing t = None \/ after_typing t = Some [EShell (input_text message)]
  end.

(** What one attempt leaves in the trace, by the way it ends: nothing
    about a failure when it returns, its own number when it goes on to
    the next attempt, and its own number when the recovery of one of the
    first two attempts raises. *)
Definition attempt_outcome (attempt : nat) (t : list Event) (r : outcome ctl) : Prop :=
  match r with
  | Ok ReturnTrue => failed_attempts t = []
  | Ok Continue => failed_attempts t = [(attempt + 1)%nat]
  | Raise e =>
      failed_attempts t = [(attempt + 1)%nat]
      /\ (attempt < max_retries - 1)%nat
      /\ exists msg, e = ViewClientError msg
  end.

(** What a whole call of [send_sms] leaves in the trace. *)
Definition send_sms_outcome (phone_number : string) (t : list Event)
    (r : outcome bool) : Prop :=
  match r with
  | Ok b =>
      b = true
      /\ (failed_attempts t = [] \/ failed_attempts t = [1%nat]
          \/ failed_attempts t = [1%nat; 2%nat])
  | Raise e =>
      (e = send_failed phone_number /\ failed_attempts t = [1%nat; 2%nat; 3%nat])
      \/ ((exists msg, e = ViewClientError msg)
          /\ (failed_attempts t = [1%nat] \/ failed_attempts t = [1%nat; 2%nat]))
  end.

(** What the [except] clause of an attempt does after its first line. *)
Definition unwinding (attempt : nat) (t2 : list Event) (r : outcome ctl) : Prop :=
  if decide (attempt < max_retries - 1)%nat then
    match r with
    | Ok c =>
        c = Continue
        /\ t2 = [EPrint MsgRetryingAfterError; ESleep 2000;
                 EShell KEYCODE_BACK; ESleep 1000;
                 EShell KEYCODE_BACK; ESleep 1000;
                 EShell KEYCODE_BACK; ESleep 1000; ESleep 2000]
        /\ back_keys t2 = 3%nat
    | Raise e' =>
        (exists msg, e' = ViewClientError msg)
        /\ (1 <= back_keys t2 <= 3)%nat
        /\ last t2 = Some (EShell KEYCODE_BACK)
    end
  else t2 = [] /\ r = Ok Continue.

(** A trace that counts for nothing in the loop of [main]. *)
Definition silent (t : list Event) : Prop :=
  sends_completed t = 0%nat /\ deletions t = 0%nat
  /\ processed t = [] /\ failed_recipients t = [].

(** One call of [send_sms] completes one send when it returns and none
    when it raises; nothing else in its trace counts. *)
Definition one_send {A} (t : list Event) (r : outcome A) : Prop :=
  deletions t = 0%nat /\ processed t = [] /\ failed_recipients t = []
  /\ sends_completed t = match r with Ok _ => 1%nat | Raise _ => 0%nat end.

(** The first half of the [try] of the loop of [main], with the [except]
    clause. *)
Definition try_send_outcome (Dev : Type) `{ViewClient Dev} (phone_number : string)
    (t : list Event) (r : outcome bool) : Prop :=
  deletions t = 0%nat /\ processed t = []
  /\ match r with
     | Ok true => sends_completed t = 1%nat /\ failed_recipients t = []
     | Ok false => sends_completed t = 0%nat /\ failed_recipients t = [phone_number]
     | Raise _ =>
         sends_completed t = 0%nat /\ failed_recipients t = [phone_number]
         /\ ~ recovery_returns Dev
     end.

(** One pass of the loop of [main], started with [c] successes. *)
Definition recipient_outcome (Dev : Type) `{ViewClient Dev} (delete : bool)
    (phone_number : string) (c : nat) (t : list Event) (r : outcome nat) : Prop :=
  processed t = [phone_number]
  /\ (deletions t <= sends_completed t <= 1)%nat
  /\ (delete = false -> deletions t = 0%nat)
  /\ (sends_completed t = 0%nat -> failed_recipients t = [phone_number])
  /\ (forall c', r = Ok c' -> c' = (c + sends_completed t)%nat)
  /\ (recovery_returns Dev ->
      (exists c', r = Ok c')
      /\ deletions t = if delete then sends_completed t else 0%nat).

(** The whole loop of [main], started with [c] successes. *)
Definition loop_outcome (Dev : Type) `{ViewClient Dev} (delete : bool)
    (phone_numbers : list string) (c : nat) (t : list Event) (r : outcome nat) : Prop :=
  (deletions t <= sends_completed t <= length phone_numbers)%nat
  /\ (delete = false -> deletions t = 0%nat)
  /\ (forall c', r = Ok c' ->
        c' = (c + sends_completed t)%nat
        /\ processed t = phone_numbers
        /\ (length phone_numbers
            <= sends_completed t + length (failed_recipients t))%nat)
  /\ (recovery_returns Dev ->
      (exists c', r = Ok c')
      /\ deletions t = if delete then sends_completed t else 0%nat).




(** ** Concrete inputs used by the examples *)

(** A stand-in for the phone-number library: a line is a number when it is
    a plus sign followed by at least one character; the canonical form is
    the line itself. *)
Definition toy_phonenumbers : PhoneNumbers := {|
  PhoneNumber := string;
  parse line :=
    match line with
    | String "+" (String _ _) => Some line
    | _ => None
    end;
  format_E164 n := n
|}.

(** The two input files of the script. *)
Definition files (numbers content : option (list string)) : filesystem :=
  fun path =>
    if String.eqb path "numbers.txt" then numbers
    else if String.eqb path "content.txt" then content
    else None.

Definition newline : string := String "010" EmptyString.

Definition numbers_example : list string :=
  ["  +4420 " +:+ newline; newline; "not a number" +:+ newline;
   "+1415" +:+ newline; "+4420" +:+ newline].

(** A content file whose first line is blank and whose second is not. *)
Definition blank_first_line : list string := [newline; "Hello" +:+ newline].

(** A view with nothing but an identifier. *)
Definition button (id : string) : View :=
  {| view_id := id; getText := None; getXY := (0, 0) |}.

(** A device on which the Start Chat button shows up late: the lookups by
    id find it from the seventh call on, that is from the third attempt of
    [send_sms]; the contact field is always there, nothing else is, and no
    call raises. *)
Definition late_start_chat : behaviour := {|
  bh_fails _ _ := None;
  bh_by_id n id :=
    if String.eqb id START_CHAT_ID then
      if decide (6 <= n)%nat then Some (button id) else None
    else if String.eqb id CONTACT_SEARCH_FIELD then Some (button id)
    else None;
  bh_views _ _ := []
|}.

(** A device on which taking a snapshot always raises and every other call
    goes through. *)
Definition no_snapshot : behaviour := {|
  bh_fails _ ev := match ev with EDump => Some "snapshot failed" | _ => None end;
  bh_by_id _ _ := None;
  bh_views _ _ := []
|}.


(** A device whose screen shows none of the views the script looks for;
    no call raises. *)
Definition empty_screen : behaviour := {|
  bh_fails _ _ := None;
  bh_by_id _ _ := None;
  bh_views _ _ := []
|}.

(** The same empty screen, on a device that is lost at call [n0]: that call
    and all later ones raise. *)
Definition goes_offline (n0 : nat) : behaviour := {|
  bh_fails n _ := if decide (n0 <= n)%nat then Some "device offline" else None;
  bh_by_id _ _ := None;
  bh_views _ _ := []
|}.

(** A device on which the Start Chat button and the contact field are
    always found and nothing else is.  [working] never raises;
    [hiccup a b] raises on the calls numbered from [a] to [b - 1];
    [rejects digits] raises when the script types [digits]. *)
Definition shows_compose_views (id : string) : option View :=
  if String.eqb id START_CHAT_ID || String.eqb id CONTACT_SEARCH_FIELD
  then Some (button id) else None.

Definition working : behaviour := {|
  bh_fails _ _ := None;
  bh_by_id _ id := shows_compose_views id;
  bh_views _ _ := []
|}.


Definition rejects (digits : string) : behaviour := {|
  bh_fails _ ev :=
    match ev with
    | EShell cmd => if String.eqb cmd (input_text digits) then Some "rejected" else None
    | _ => None
    end;
  bh_by_id _ id := shows_compose_views id;
  bh_views _ _ := []
|}.

Definition five_numbers : list string :=
  ["+1001" +:+ newline; "+1002" +:+ newline; "+1003" +:+ newline;
   "+1004" +:+ newline; "+1005" +:+ newline].

(** Three runs of the whole script on simulated devices: two recipients
    on an empty screen with the device lost at call 11; one recipient, with
    delete mode on, on a working device that raises on calls 18 and 19;
    five recipients on a working device that rejects the third number. *)
Definition lost_device_run : nat * list Event * Z :=
  @main nat (simulated (goes_offline 11)) toy_phonenumbers
        (files (Some ["+1001"; "+1002"]) (Some ["hello"])) None false false 5 0%nat.


Definition five_recipients_run : nat * list Event * Z :=
  @main nat (simulated (rejects "1003")) toy_phonenumbers
        (files (Some five_numbers) (Some ["hello"])) None false false 5 0%nat.

(** ** More readings of a trace *)

(** The time spent in [time.sleep], in milliseconds. *)
Fixpoint slept (t : list Event) : Z :=
  match t with
  | [] => 0
  | ESleep ms :: t' => ms + slept t'
  | _ :: t' => slept t'
  end.

(** All back navigations of a trace. *)
Definition navigations (t : list Event) : nat := length (List.filter is_navigation t).

Definition is_touch (ev : Event) : bool :=
  match ev with ETouch _ => true | _ => false end.
Definition touches (t : list Event) : nat := length (List.filter is_touch t).

Definition is_drag (ev : Event) : bool :=
  match ev with EDrag _ _ _ _ => true | _ => false end.
Definition drags (t : list Event) : nat := length (List.filter is_drag t).

(** The launches of the Messages application. *)
Definition is_launch (ev : Event) : bool :=
  match ev with
  | EShell cmd => String.eqb cmd am_start
  | _ => false
  end.
Definition launches (t : list Event) : nat := length (List.filter is_launch t).

Definition is_connect (ev : Event) : bool :=
  match ev with EConnect _ => true | _ => false end.
Definition connections (t : list Event) : nat := length (List.filter is_connect t).

(** The delays between messages: [main] prints "Waiting ... seconds"
    right before each. *)
Definition is_waiting (ev : Event) : bool :=
  match ev with EPrint (MsgWaiting _) => true | _ => false end.
Definition waits (t : list Event) : nat := length (List.filter is_waiting t).


(** What [send_sms] may do to the device for a recipient and a message:
    the three key events, the two texts, the lookups of the compose
    screen. *)
Definition compose_event (phone_number message : string) (ev : Event) : Prop :=
  match ev with
  | EShell cmd =>
      cmd = KEYCODE_CTRL_A \/ cmd = KEYCODE_ENTER \/ cmd = KEYCODE_BACK
      \/ cmd = input_text (PyStr.remove_char "+" phone_number)
      \/ cmd = input_text message
  | EFindViewById id =>
      id = START_CHAT_ID \/ id = CONTACT_SEARCH_FIELD
      \/ id = CONTACT_SUGGESTION_SELECTOR \/ id = COMPOSE_DRAFT_SEND_ID
  | EFindViewsContainingText text => text = "Start chat"
  | EFindViewsWithAttribute attr value => attr = "clickable" /\ value = true
  | EFindViewsWithContentDescriptionRe _ | EDrag _ _ _ _ | EConnect _ | EStderr _ => False
  | EDump | ETouch _ | ESleep _ | EPrint _ => True
  end.

(** What [go_back_to_main_screen] may do to the device. *)
Definition navigation_event (ev : Event) : Prop :=
  match ev with
  | EShell cmd => cmd = KEYCODE_BACK
  | EFindViewById id => id = START_CHAT_ID
  | EFindViewsContainingText text => text = "Start chat"
  | EFindViewsWithContentDescriptionRe re => re = "Back"
  | EFindViewsWithAttribute _ _ | EDrag _ _ _ _ | EConnect _ | EStderr _ => False
  | EDump | ETouch _ | ESleep _ | EPrint _ => True
  end.

(** What [delete_last_sms] may do to the device: no shell command at all,
    and a drag only from a point to itself, held for a second. *)
Definition cleanup_event (ev : Event) : Prop :=
  match ev with
  | EFindViewById id => id = LAST_CHAT_ID \/ id = DELETE_CHAT_ID \/ id = CONFIRM_ID
  | EDrag src dst duration steps => src = dst /\ duration = 1000 /\ steps = 1
  | EShell _ | EFindViewsContainingText _ | EFindViewsWithContentDescriptionRe _
  | EFindViewsWithAttribute _ _ | EConnect _ | EStderr _ => False
  | EDump | ETouch _ | ESleep _ | EPrint _ => True
  end.

(** The total of the sleeps one attempt of [send_sms] can reach: the body
    up to the tap on the send button and the unwinding for all attempts but
    the last, the whole body for the last. *)
Definition attempt_sleep_bound (attempt : nat) : Z :=
  if decide (attempt < max_retries - 1)%nat then 24500 else 20500.

(** The sleeps no returning attempt goes without. *)
Definition attempt_sleep_floor (draft : bool) : Z :=
  if draft then 14500 else 17500.


(** What a whole run may do to the device for its recipients and its
    message: the launch of the application, the three key events, the
    message, the digits of a recipient, and the long press of
    [delete_last_sms]. *)
Definition run_event (phone_numbers : list string) (message : string)
    (ev : Event) : Prop :=
  match ev with
  | EShell cmd =>
      cmd = am_start \/ cmd = KEYCODE_CTRL_A \/ cmd = KEYCODE_ENTER
      \/ cmd = KEYCODE_BACK \/ cmd = input_text message
      \/ exists phone_number,
           phone_number ∈ phone_numbers
           /\ cmd = input_text (PyStr.remove_char "+" phone_number)
  | EDrag src dst duration steps => src = dst /\ duration = 1000 /\ steps = 1
  | _ => True
  end.

(** A call that opens a session or starts the application. *)
Definition is_start (ev : Event) : bool := is_connect ev || is_launch ev.

(** ** More concrete inputs *)

(** The numbers of [numbers_example] in another order, with repeats and
    blank lines. *)
Definition numbers_shuffled : list string :=
  [newline; "+1415  " +:+ newline; "+4420" +:+ newline; "+1415" +:+ newline;
   "    " +:+ newline; "not a number" +:+ newline].

(** Two recipients on a working device, with a negative delay. *)
Definition negative_delay_run : nat * list Event * Z :=
  @main nat (simulated working) toy_phonenumbers
        (files (Some ["+1001"; "+1002"]) (Some ["hello"])) None false false (-1) 0%nat.


(** * Properties *)

(** ** The input loader *)

Section InputLoaderFacts.
Context `{PhoneNumbers}.

Lemma elem_of_add_lines (lines : list string) (acc : gset string) (s : string) :
  s ∈ foldl add_line acc lines <->
  s ∈ acc \/ exists line n,
      line ∈ lines /\ line <> EmptyString /\ parse line = Some n /\ s = format_E164 n.
Proof.
  revert acc. induction lines as [|l lines IH]; intros acc; simpl.
  - split; [auto|]. intros [?|(line & n & Hin & _)]; [done|]. by apply elem_of_nil in Hin.
  - rewrite IH. unfold add_line. split.
    + intros [Hacc|(line & n & Hin & Hne & Hp & ->)].
      * destruct (decide (l = EmptyString)); [auto|].
        destruct (parse l) as [m|] eqn:Hp; [|auto].
        apply elem_of_union in Hacc as [->%elem_of_singleton|?]; [|auto].
        right. exists l, m. split_and!; auto. left.
      * right. exists line, n. split_and!; auto. by right.
    + intros [Hacc|(line & n & Hin & Hne & Hp & ->)].
      * left. destruct (decide (l = EmptyString)); [done|].
        destruct (parse l); [|done]. apply elem_of_union. by right.
      * apply elem_of_cons in Hin as [->|Hin].
        -- left. destruct (decide (l = EmptyString)); [done|].
           rewrite Hp. apply elem_of_union. left. by apply elem_of_singleton.
        -- right. exists line, n. auto.
Qed.

(** The numbers collected from a file: the canonical forms of the lines
    that, once stripped, are not blank and parse. *)
Lemma elem_of_collected (f : list string) (s : string) :
  s ∈ foldl add_line ∅ (PyStr.strip <$> f) <->
  exists line n, line ∈ f /\ PyStr.strip line <> EmptyString
                 /\ parse (PyStr.strip line) = Some n /\ s = format_E164 n.
Proof.
  rewrite elem_of_add_lines. split.
  - intros [?|(l & n & Hin & Hne & Hp & ->)]; [set_solver|].
    apply list_elem_of_fmap in Hin as (line & -> & Hin). eauto 10.
  - intros (line & n & Hin & Hne & Hp & ->). right.
    exists (PyStr.strip line), n. split_and!; auto.
    apply list_elem_of_fmap. eauto.
Qed.

Lemma string_lt_of_le_ne (a b : string) :
  String.le a b -> a <> b -> String.ltb a b = true.
Proof.
  unfold String.le, String.leb, String.ltb. intros Hle Hne.
  destruct (String.compare a b) eqn:Hc; [|done|done].
  by apply String.compare_eq_iff in Hc.
Qed.

Lemma Sorted_strict (l : list string) :
  Sorted String.le l -> NoDup l -> Sorted (fun a b => String.ltb a b = true) l.
Proof.
  induction 1 as [|x l Hs IH Hhd]; intros Hnd; [constructor|].
  apply NoDup_cons in Hnd as [Hx Hnd]. constructor; [auto|].
  destruct Hhd as [|y l Hxy]; constructor.
  apply string_lt_of_le_ne; [done|]. intros ->. apply Hx. left.
Qed.

End InputLoaderFacts.

(** C3.  When some line of the numbers file, once stripped, is not blank and
    parses as a phone number, [get_phone_numbers] returns a list that is not
    empty, has no duplicates and is in strictly ascending lexicographic
    order; its elements are exactly the E164 forms of the lines that parse,
    so the lines that do not parse are dropped and nothing is raised. *)
Theorem get_phone_numbers_sorted_unique `{PhoneNumbers}
    (fs : filesystem) (file_path : string) (f : list string)
    (line : string) (n : PhoneNumber) :
  fs file_path = Some f ->
  line ∈ f ->
  PyStr.strip line <> EmptyString ->
  parse (PyStr.strip line) = Some n ->
  exists nums,
    get_phone_numbers fs file_path = Loaded nums
    /\ nums <> []
    /\ NoDup nums
    /\ StronglySorted String.le nums
    /\ Sorted (fun a b => String.ltb a b = true) nums
    /\ forall s, s ∈ nums <->
         exists l m, l ∈ f /\ PyStr.strip l <> EmptyString
                     /\ parse (PyStr.strip l) = Some m /\ s = format_E164 m.
Proof.
  intros Hfs Hin Hne Hp. unfold get_phone_numbers. rewrite Hfs.
  set (collected := foldl add_line ∅ (PyStr.strip <$> f)).
  assert (Hmem : format_E164 n ∈ collected).
  { apply elem_of_collected. eauto 10. }
  destruct (decide (collected = ∅)) as [Hempty|_].
  { rewrite Hempty in Hmem. by apply not_elem_of_empty in Hmem. }
  set (nums := merge_sort String.le (elements collected)).
  assert (Hperm : nums ≡ₚ elements collected) by apply merge_sort_Permutation.
  assert (Hnd : NoDup nums) by (rewrite Hperm; apply NoDup_elements).
  assert (Hs : Sorted String.le nums) by apply (Sorted_merge_sort _).
  exists nums. split_and!; auto.
  - intros Hnil. rewrite Hnil in Hperm. symmetry in Hperm.
    apply Permutation_nil_r in Hperm.
    apply elem_of_elements in Hmem. rewrite Hperm in Hmem.
    by apply elem_of_nil in Hmem.
  - by apply (StronglySorted_merge_sort _).
  - by apply Sorted_strict.
  - intros s. rewrite Hperm, elem_of_elements. apply elem_of_collected.
Qed.

Lemma get_phone_numbers_sorted_unique_witness :
  exists nums,
    @get_phone_numbers toy_phonenumbers (files (Some numbers_example) None) "numbers.txt"
      = Loaded nums
    /\ nums = ["+1415"; "+4420"].
Proof.
  destruct (@get_phone_numbers_sorted_unique toy_phonenumbers
              (files (Some numbers_example) None) "numbers.txt" numbers_example
              ("+1415" +:+ newline) "+1415")
    as (nums & Hload & _); [reflexivity|vm_compute; set_solver|vm_compute; congruence|reflexivity|].
  exists nums. split; [exact Hload|].
  vm_compute in Hload. congruence.
Defined.

(** C4.  The exit codes of the two loaders: [get_phone_numbers] ends the
    process with 1 exactly when the file is missing and with 2 exactly when
    the file is there and no line of it parses; [get_message] ends it with 1
    exactly when the file is missing and with 3 exactly when the first line is
    empty once stripped; no other code comes from them.  In [main] either
    exit happens before the device is used: the device state is untouched
    and the trace holds only the banner and the message on standard error. *)
Theorem startup_exit_codes `{PhoneNumbers} (fs : filesystem) :
  (forall path, (exists err, get_phone_numbers fs path = SysExit 1 err) <-> fs path = None)
  /\ (forall path, (exists err, get_phone_numbers fs path = SysExit 2 err) <->
        exists f, fs path = Some f
                  /\ forall line, line ∈ f ->
                       PyStr.strip line = EmptyString \/ parse (PyStr.strip line) = None)
  /\ (forall path code err, get_phone_numbers fs path = SysExit code err ->
        code = 1 \/ code = 2)
  /\ (forall path, (exists err, get_message fs path = SysExit 1 err) <-> fs path = None)
  /\ (forall path, (exists err, get_message fs path = SysExit 3 err) <->
        exists f, fs path = Some f /\ PyStr.strip (readline f) = EmptyString)
  /\ (forall path code err, get_message fs path = SysExit code err ->
        code = 1 \/ code = 3)
  /\ (forall Dev (vc : ViewClient Dev) serialno draft delete delay (d : Dev) code err,
        get_phone_numbers fs "numbers.txt" = SysExit code err ->
        main fs serialno draft delete delay d = (d, [EPrint MsgBanner; EStderr err], code))
  /\ (forall Dev (vc : ViewClient Dev) serialno draft delete delay (d : Dev) nums code err,
        get_phone_numbers fs "numbers.txt" = Loaded nums ->
        get_message fs "content.txt" = SysExit code err ->
        main fs serialno draft delete delay d = (d, [EPrint MsgBanner; EStderr err], code)).
Proof.
  assert (Hnone : forall f,
             foldl add_line ∅ (PyStr.strip <$> f) = ∅ <->
             forall line, line ∈ f ->
               PyStr.strip line = EmptyString \/ parse (PyStr.strip line) = None).
  { intros f. split.
    - intros Hempty line Hin.
      destruct (decide (PyStr.strip line = EmptyString)) as [|Hne]; [auto|].
      destruct (parse (PyStr.strip line)) as [n|] eqn:Hp; [|auto].
      assert (Hmem : format_E164 n ∈ foldl add_line ∅ (PyStr.strip <$> f))
        by (apply elem_of_collected; eauto 10).
      rewrite Hempty in Hmem. by apply not_elem_of_empty in Hmem.
    - intros Hall. apply leibniz_equiv, elem_of_equiv_empty. intros s Hs.
      apply elem_of_collected in Hs as (line & n & Hin & Hne & Hp & _).
      destruct (Hall line Hin); congruence. }
  split_and!.
  - intros path. unfold get_phone_numbers.
    destruct (fs path) as [f|]; [|split; eauto].
    split; [|done]. intros [err Herr]. by case_decide.
  - intros path. unfold get_phone_numbers.
    destruct (fs path) as [f|].
    + case_decide as Hc.
      * split; [|eauto]. intros _. exists f. split; [done|]. by apply Hnone.
      * split; [by intros [? ?]|]. intros (f' & [= <-] & Hall).
        by apply Hnone in Hall.
    + split; [by intros [? ?]|]. by intros (? & ? & ?).
  - intros path code err. unfold get_phone_numbers.
    destruct (fs path); [case_decide|]; intros [= <- <-]; auto.
  - intros path. unfold get_message.
    destruct (fs path) as [f|]; [|split; eauto].
    split; [|done]. intros [err Herr]. by case_decide.
  - intros path. unfold get_message.
    destruct (fs path) as [f|].
    + case_decide as Hc.
      * split; [|eauto]. intros _. by exists f.
      * split; [by intros [? ?]|]. by intros (f' & [= <-] & ?).
    + split; [by intros [? ?]|]. by intros (? & ? & ?).
  - intros path code err. unfold get_message.
    destruct (fs path); [case_decide|]; intros [= <- <-]; auto.
  - intros Dev vc serialno draft delete delay d code err Hnum.
    unfold main. by rewrite Hnum.
  - intros Dev vc serialno draft delete delay d nums code err Hnum Hmsg.
    unfold main. by rewrite Hnum, Hmsg.
Qed.

Lemma startup_exit_codes_witness :
  @main nat (simulated {| bh_fails _ _ := None; bh_by_id _ _ := None; bh_views _ _ := [] |})
        toy_phonenumbers (files None (Some blank_first_line)) None false false 5 0%nat
  = (0%nat, [EPrint MsgBanner; EStderr "Oops, file not found: numbers.txt"], 1).
Proof.
  destruct (@startup_exit_codes toy_phonenumbers (files None (Some blank_first_line)))
    as (_ & _ & _ & _ & _ & _ & Hmain & _).
  apply Hmain. reflexivity.
Defined.

(** C5, as stated, fails: with a blank first line and the text on the second
    line, the first non-blank line is "Hello", yet [get_message] ends the
    process with code 3 instead of returning it. *)
Lemma get_message_blank_first_line :
  first_non_blank_line blank_first_line = Some ("Hello" +:+ newline)
  /\ PyStr.strip ("Hello" +:+ newline) = "Hello"
  /\ get_message (files None (Some blank_first_line)) "content.txt"
     = SysExit 3 "Content file is empty!".
Proof. split_and!; reflexivity. Qed.

(** C5, amended.  [get_message] returns the first line of the content file,
    stripped, whenever that stripped line is not empty, and ends the process
    with code 3 when it is empty, whatever the later lines hold: nothing
    after the first line has any influence on what it does. *)
Theorem get_message_first_line (fs : filesystem) (file_path : string)
    (first : string) (rest : list string) :
  fs file_path = Some (first :: rest) ->
  (PyStr.strip first <> EmptyString ->
   get_message fs file_path = Loaded (PyStr.strip first))
  /\ (PyStr.strip first = EmptyString ->
      get_message fs file_path = SysExit 3 "Content file is empty!")
  /\ (forall (fs' : filesystem) (rest' : list string),
        fs' file_path = Some (first :: rest') ->
        get_message fs' file_path = get_message fs file_path).
Proof.
  intros Hfs. split_and!.
  - intros Hne. unfold get_message. rewrite Hfs. simpl. by case_decide.
  - intros Hempty. unfold get_message. rewrite Hfs. simpl. by case_decide.
  - intros fs' rest' Hfs'. unfold get_message. by rewrite Hfs, Hfs'.
Qed.

Lemma get_message_first_line_witness :
  get_message (files None (Some ["  Hello world " +:+ newline; "ignored"])) "content.txt"
  = Loaded "Hello world".
Proof.
  apply (get_message_first_line _ "content.txt" ("  Hello world " +:+ newline) ["ignored"]);
    [reflexivity|vm_compute; congruence].
Defined.

Lemma collect_app {A} (f : Event -> option A) (t1 t2 : list Event) :
  collect f (t1 ++ t2) = collect f t1 ++ collect f t2.
Proof.
  induction t1 as [|ev t1 IH]; simpl; [done|].
  destruct (f ev); simpl; by rewrite IH.
Qed.

(** ** Reasoning about runs *)

Section Runs.
Context {Dev : Type}.

Lemma post_ret {A} (a : A) Q : Q [] (Ok a) -> post (Dev := Dev) (ret a) Q.
Proof. intros HQ d. exact HQ. Qed.

Lemma post_raise {A} (e : exn) (Q : list Event -> outcome A -> Prop) :
  Q [] (Raise e) -> post (Dev := Dev) (raise e) Q.
Proof. intros HQ d. exact HQ. Qed.

Lemma post_print (m : Msg) Q : Q [EPrint m] (Ok tt) -> post (print (Dev := Dev) m) Q.
Proof. intros HQ d. exact HQ. Qed.

Lemma post_sleep (ms : Z) Q :
  0 <= ms -> Q [ESleep ms] (Ok tt) -> post (sleep (Dev := Dev) ms) Q.
Proof. intros Hms HQ d. unfold sleep. case_decide; [lia|]. exact HQ. Qed.

Lemma post_sleep_any (ms : Z) (Q : list Event -> outcome unit -> Prop) :
  Q [ESleep ms] (Ok tt) ->
  (forall msg, Q [] (Raise (ValueError msg))) ->
  post (sleep (Dev := Dev) ms) Q.
Proof. intros HQ Hneg d. unfold sleep. case_decide; [apply Hneg|exact HQ]. Qed.

Lemma post_call {A} (ev : Event) (op : Dev -> Dev * reply A) Q :
  (forall a, Q [ev] (Ok a)) ->
  (forall msg, Q [ev] (Raise (ViewClientError msg))) ->
  post (call ev op) Q.
Proof.
  intros Hok Hfail d. unfold call, trace_of, result_of.
  destruct (op d) as [d1 [a|msg]]; simpl; auto.
Qed.

Lemma post_bind {A B} (m : M Dev A) (f : A -> M Dev B) Q :
  post m (fun t1 r1 =>
            match r1 with
            | Ok a => post (f a) (fun t2 r2 => Q (t1 ++ t2) r2)
            | Raise e => Q t1 (Raise e)
            end) ->
  post (bind m f) Q.
Proof.
  intros Hm d. specialize (Hm d). unfold bind, trace_of, result_of in *.
  destruct (m d) as [[d1 t1] [a|e]]; simpl in *; [|exact Hm].
  specialize (Hm d1). by destruct (f a d1) as [[d2 t2] r].
Qed.

Lemma post_try_catch {A} (m : M Dev A) (h : exn -> M Dev A) Q :
  post m (fun t1 r1 =>
            match r1 with
            | Ok a => Q t1 (Ok a)
            | Raise e => post (h e) (fun t2 r2 => Q (t1 ++ t2) r2)
            end) ->
  post (try_catch m h) Q.
Proof.
  intros Hm d. specialize (Hm d). unfold try_catch, trace_of, result_of in *.
  destruct (m d) as [[d1 t1] [a|e]]; simpl in *; [exact Hm|].
  specialize (Hm d1). by destruct (h e d1) as [[d2 t2] r].
Qed.

Lemma post_mono {A} (m : M Dev A) (Q Q' : list Event -> outcome A -> Prop) :
  post m Q -> (forall t r, Q t r -> Q' t r) -> post m Q'.
Proof. intros Hm HQ d. apply HQ, Hm. Qed.

Lemma post_and {A} (m : M Dev A) (Q Q' : list Event -> outcome A -> Prop) :
  post m Q -> post m Q' -> post m (fun t r => Q t r /\ Q' t r).
Proof. intros Hm Hm' d. split; [apply Hm|apply Hm']. Qed.

(** Sequencing after a computation whose behaviour is already known. *)
Lemma post_bind_with {A B} (m : M Dev A) (f : A -> M Dev B)
    (Qm : list Event -> outcome A -> Prop) Q :
  post m Qm ->
  (forall t1 a, Qm t1 (Ok a) -> post (f a) (fun t2 r2 => Q (t1 ++ t2) r2)) ->
  (forall t1 e, Qm t1 (Raise e) -> Q t1 (Raise e)) ->
  post (bind m f) Q.
Proof.
  intros Hm Hok Hraise. apply post_bind. eapply post_mono; [exact Hm|].
  intros t [a|e] HQ; [by apply Hok|by apply Hraise].
Qed.

Lemma post_try_catch_with {A} (m : M Dev A) (h : exn -> M Dev A)
    (Qm : list Event -> outcome A -> Prop) Q :
  post m Qm ->
  (forall t1 a, Qm t1 (Ok a) -> Q t1 (Ok a)) ->
  (forall t1 e, Qm t1 (Raise e) -> post (h e) (fun t2 r2 => Q (t1 ++ t2) r2)) ->
  post (try_catch m h) Q.
Proof.
  intros Hm Hok Hraise. apply post_try_catch. eapply post_mono; [exact Hm|].
  intros t [a|e] HQ; [by apply Hok|by apply Hraise].
Qed.

(** Running a computation from a state where its first step is known. *)
Lemma bind_ok {A B} (m : M Dev A) (f : A -> M Dev B) d d1 t1 a :
  m d = (d1, t1, Ok a) ->
  bind m f d = (state_of (f a d1), t1 ++ trace_of (f a d1), result_of (f a d1)).
Proof. intros Hm. unfold bind. rewrite Hm. by destruct (f a d1) as [[? ?] ?]. Qed.

Lemma bind_raise {A B} (m : M Dev A) (f : A -> M Dev B) d d1 t1 e :
  m d = (d1, t1, Raise e) -> bind m f d = (d1, t1, Raise e).
Proof. intros Hm. unfold bind. by rewrite Hm. Qed.

Lemma try_catch_ok {A} (m : M Dev A) (h : exn -> M Dev A) d d1 t1 a :
  m d = (d1, t1, Ok a) -> try_catch m h d = (d1, t1, Ok a).
Proof. intros Hm. unfold try_catch. by rewrite Hm. Qed.

Lemma try_catch_raise {A} (m : M Dev A) (h : exn -> M Dev A) d d1 t1 e :
  m d = (d1, t1, Raise e) ->
  try_catch m h d = (state_of (h e d1), t1 ++ trace_of (h e d1), result_of (h e d1)).
Proof. intros Hm. unfold try_catch. rewrite Hm. by destruct (h e d1) as [[? ?] ?]. Qed.

Lemma try_catch_unfold {A} (m : M Dev A) (h : exn -> M Dev A) d :
  try_catch m h d
  = match result_of (m d) with
    | Ok a => m d
    | Raise e =>
        (state_of (h e (state_of (m d))),
         trace_of (m d) ++ trace_of (h e (state_of (m d))),
         result_of (h e (state_of (m d))))
    end.
Proof.
  unfold try_catch. destruct (m d) as [[d1 t1] [a|e]]; simpl; [done|].
  unfold state_of, trace_of, result_of. simpl.
  destruct (h e d1) as [[? ?] ?]. reflexivity.
Qed.

Lemma bind_unfold {A B} (m : M Dev A) (f : A -> M Dev B) d :
  bind m f d
  = match result_of (m d) with
    | Ok a =>
        (state_of (f a (state_of (m d))),
         trace_of (m d) ++ trace_of (f a (state_of (m d))),
         result_of (f a (state_of (m d))))
    | Raise e => (state_of (m d), trace_of (m d), Raise e)
    end.
Proof.
  unfold bind. destruct (m d) as [[d1 t1] [a|e]]; simpl; [|done].
  unfold state_of, trace_of, result_of. simpl.
  destruct (f a d1) as [[? ?] ?]. reflexivity.
Qed.

Lemma bind_print {B} (m : Msg) (f : unit -> M Dev B) d :
  bind (print m) f d
  = (state_of (f tt d), EPrint m :: trace_of (f tt d), result_of (f tt d)).
Proof. unfold bind, print. by destruct (f tt d) as [[? ?] ?]. Qed.

Lemma call_fine {A} (ev : Event) (op : Dev -> Dev * reply A) d d1 a :
  op d = (d1, Fine a) -> call ev op d = (d1, [ev], Ok a).
Proof. intros Hop. unfold call. by rewrite Hop. Qed.

Lemma call_fails {A} (ev : Event) (op : Dev -> Dev * reply A) d d1 msg :
  op d = (d1, Fails msg) -> call ev op d = (d1, [ev], Raise (ViewClientError msg)).
Proof. intros Hop. unfold call. by rewrite Hop. Qed.

Lemma run_eta {A} (r : Dev * list Event * outcome A) :
  r = (state_of r, trace_of r, result_of r).
Proof. by destruct r as [[? ?] ?]. Qed.

End Runs.

(** One step of the calculus: the rule for the head of the computation. *)
Ltac post_step :=
  lazymatch goal with
  | |- post (bind _ _) _ => apply post_bind
  | |- post (ret _) _ => apply post_ret
  | |- post (raise _) _ => apply post_raise
  | |- post (print _) _ => apply post_print
  | |- post (sleep _) _ => apply post_sleep; [lia|]
  | |- post (call _ _) _ => apply post_call; [intros ?|intros ?]
  | |- post (try_catch _ _) _ => apply post_try_catch
  | |- post (match ?x with _ => _ end) _ => destruct x
  | |- post (if ?b then _ else _) _ => destruct b
  end; cbn [negb repeat_times].

Ltac post_steps :=
  repeat (post_step;
          unfold dump, findViewById, findViewsContainingText,
            findViewsWithContentDescriptionRe, findViewsWithAttribute,
            touch, shell, drag, connectToDeviceOrExit).

(** Properties of every event of a trace compose along the program. *)
Section Emits.
Context {Dev : Type}.
Variable P : Event -> Prop.

Lemma emits_ret {A} (a : A) : emits (Dev := Dev) P (ret a).
Proof. apply post_ret. constructor. Qed.

Lemma emits_raise {A} (e : exn) : emits (Dev := Dev) P (raise (A := A) e).
Proof. apply post_raise. constructor. Qed.

Lemma emits_print (m : Msg) : P (EPrint m) -> emits (Dev := Dev) P (print m).
Proof. intros HP. apply post_print. by repeat constructor. Qed.

Lemma emits_sleep (ms : Z) : P (ESleep ms) -> emits (Dev := Dev) P (sleep ms).
Proof. intros HP. apply post_sleep_any; intros; by repeat constructor. Qed.

Lemma emits_call {A} (ev : Event) (op : Dev -> Dev * reply A) :
  P ev -> emits (Dev := Dev) P (call ev op).
Proof. intros HP. apply post_call; intros; by repeat constructor. Qed.

Lemma emits_bind {A B} (m : M Dev A) (f : A -> M Dev B) :
  emits (Dev := Dev) P m -> (forall a, emits (Dev := Dev) P (f a)) -> emits (Dev := Dev) P (bind m f).
Proof.
  intros Hm Hf. eapply post_bind_with; [exact Hm|..]; simpl.
  - intros t1 a Ht1. eapply post_mono; [apply Hf|].
    intros t2 r2 Ht2. by apply Forall_app.
  - auto.
Qed.

Lemma emits_try_catch {A} (m : M Dev A) (h : exn -> M Dev A) :
  emits (Dev := Dev) P m -> (forall e, emits (Dev := Dev) P (h e)) -> emits (Dev := Dev) P (try_catch m h).
Proof.
  intros Hm Hh. eapply post_try_catch_with; [exact Hm|..]; simpl.
  - auto.
  - intros t1 e Ht1. eapply post_mono; [apply Hh|].
    intros t2 r2 Ht2. by apply Forall_app.
Qed.

End Emits.

Ltac emits_step :=
  lazymatch goal with
  | |- emits _ (bind _ _) => apply emits_bind; [|intros ?]
  | |- emits _ (ret _) => apply emits_ret
  | |- emits _ (raise _) => apply emits_raise
  | |- emits _ (print _) => apply emits_print; reflexivity
  | |- emits _ (sleep _) => apply emits_sleep; reflexivity
  | |- emits _ (call _ _) => apply emits_call; reflexivity
  | |- emits _ (try_catch _ _) => apply emits_try_catch; [|intros ?]
  | |- emits _ (match ?x with _ => _ end) => destruct x
  | |- emits _ (if ?b then _ else _) => destruct b
  end; cbn [negb repeat_times].

Ltac emits_steps :=
  repeat (emits_step;
          unfold dump, findViewById, findViewsContainingText,
            findViewsWithContentDescriptionRe, findViewsWithAttribute,
            touch, shell, drag, connectToDeviceOrExit).

(** ** Draft-only mode *)

Section DraftFacts.
Context {Dev : Type} `{ViewClient Dev}.
Variables (phone_number message : string).

Lemma send_sms_loop_emits (P : Event -> Prop) (draft : bool) (attempts : list nat) :
  (forall attempt, emits P (attempt_step phone_number message draft attempt)) ->
  emits P (send_sms_loop phone_number message draft attempts).
Proof.
  intros Hstep. induction attempts as [|attempt rest IH]; simpl.
  - apply emits_raise.
  - apply emits_bind; [apply Hstep|]. intros [|]; [exact IH|apply emits_ret].
Qed.

Lemma draft_attempt_not_send_related (attempt : nat) :
  emits (fun ev => send_related ev = false)
        (attempt_step phone_number message true attempt).
Proof. unfold attempt_step, attempt_body, attempt_except. emits_steps. Qed.

Lemma draft_attempt_ending (attempt : nat) :
  post (attempt_body phone_number message true attempt) (draft_ending message).
Proof.
  unfold attempt_body, draft_ending. post_steps; simpl; auto.
Qed.

End DraftFacts.

(** C8.  In draft-only mode no run of [send_sms] looks up the send button
    or prints any of the lines that lead to the tap on it or to the fallback
    key; and in every attempt, once the message is announced, the script only
    types it, sleeps and reports the draft: no tap, no key event and no
    lookup follows the text, whatever the recipient, the message and the
    device. *)
Theorem draft_never_sends {Dev : Type} `{ViewClient Dev}
    (phone_number message : string) (d : Dev) :
  Forall (fun ev => send_related ev = false)
         (trace_of (send_sms phone_number message true d))
  /\ forall attempt,
       let run := attempt_body phone_number message true attempt d in
       match result_of run with
       | Ok ReturnTrue =>
           after_typing (trace_of run)
           = Some [EShell (input_text message); ESleep 2000; EPrint MsgSavedAsDraft]
       | Ok Continue => after_typing (trace_of run) = None
       | Raise _ =>
           after_typing (trace_of run) = None
           \/ after_typing (trace_of run) = Some [EShell (input_text message)]
       end.
Proof.
  split.
  - apply (send_sms_loop_emits phone_number message _ true (seq 0 max_retries)).
    apply draft_attempt_not_send_related.
  - intros attempt. apply (draft_attempt_ending phone_number message attempt d).
Qed.

(** ** The retry loop of [send_sms] *)

Section RetryFacts.
Context {Dev : Type} `{ViewClient Dev}.
Variables (phone_number message : string) (draft : bool).

Lemma attempt_step_outcome (attempt : nat) :
  post (attempt_step phone_number message draft attempt) (attempt_outcome attempt).
Proof.
  unfold attempt_step, attempt_body, attempt_except.
  post_steps; simpl; eauto.
Qed.

Lemma send_sms_post :
  post (send_sms phone_number message draft) (send_sms_outcome phone_number).
Proof.
  unfold send_sms, send_sms_outcome, failed_attempts. simpl.
  eapply post_bind_with; [apply (attempt_step_outcome 0)|..]; simpl.
  2:{ intros t1 e (Ht1 & _ & Hmsg). right. split; [done|]. by left. }
  intros t1 [|] Ht1; [|apply post_ret; rewrite app_nil_r; auto].
  eapply post_bind_with; [apply (attempt_step_outcome 1)|..]; simpl.
  2:{ intros t2 e (Ht2 & _ & Hmsg). right. split; [done|].
      right. unfold failed_attempts in *. by rewrite collect_app, Ht1, Ht2. }
  intros t2 [|] Ht2.
  2:{ apply post_ret. unfold failed_attempts in *.
      rewrite !collect_app, Ht1, Ht2. simpl. auto. }
  eapply post_bind_with; [apply (attempt_step_outcome 2)|..]; simpl.
  2:{ intros t3 e (_ & Hlt & _). unfold max_retries in Hlt. lia. }
  intros t3 [|] Ht3.
  - apply post_raise. left. split; [done|]. unfold failed_attempts in *.
    by rewrite !collect_app, Ht1, Ht2, Ht3.
  - apply post_ret. unfold failed_attempts in *.
    rewrite !collect_app, Ht1, Ht2, Ht3. simpl. auto.
Qed.

(** An attempt that does not find the Start Chat button says so, waits
    and goes on to the next attempt. *)
Lemma attempt_step_absent (attempt : nat) (d d' : Dev) :
  start_chat_absent d d' ->
  attempt_step phone_number message draft attempt d
  = (d', [EDump; EFindViewById START_CHAT_ID; EFindViewsContainingText "Start chat";
          EPrint (MsgNoStartChat (attempt + 1) max_retries); ESleep 2000],
     Ok Continue).
Proof.
  intros (d1 & d2 & Hdump & Hid & Htext).
  apply try_catch_ok. unfold attempt_body, dump, findViewById, findViewsContainingText.
  rewrite (bind_ok _ _ _ _ _ _ (call_fine _ _ _ _ _ Hdump)). cbv beta iota.
  rewrite (bind_ok _ _ _ _ _ _ (call_fine _ _ _ _ _ Hid)). cbv beta iota.
  assert (Hhead :
    (start_chat_elements <- call (EFindViewsContainingText "Start chat")
                                 (vc_findViewsContainingText "Start chat");;
     ret (head start_chat_elements)) d2
    = (d', [EFindViewsContainingText "Start chat"], Ok None)).
  { rewrite (bind_ok _ _ _ _ _ _ (call_fine _ _ _ _ _ Htext)). reflexivity. }
  rewrite (bind_ok _ _ _ _ _ _ Hhead). reflexivity.
Qed.

End RetryFacts.

(** C1.  A call of [send_sms] makes at most three attempts: the trace
    reports the failed attempts in order, at most two of them when the call
    returns, and the "failed after 3 attempts" error is raised only with
    attempts 1, 2 and 3 all reported as failed (any other exception is one
    the device raised while an earlier attempt was being unwound).  When the
    Start Chat lookup finds nothing in attempts 1 and 2 and the third
    attempt runs to its [return True], the call returns [True] on the third
    attempt and raises nothing. *)
Theorem send_sms_three_attempts {Dev : Type} `{ViewClient Dev}
    (phone_number message : string) (draft : bool) (d : Dev) :
  (let run := send_sms phone_number message draft d in
   match result_of run with
   | Ok b =>
       b = true
       /\ (failed_attempts (trace_of run) = []
           \/ failed_attempts (trace_of run) = [1%nat]
           \/ failed_attempts (trace_of run) = [1%nat; 2%nat])
   | Raise e =>
       (e = send_failed phone_number
        /\ failed_attempts (trace_of run) = [1%nat; 2%nat; 3%nat])
       \/ ((exists msg, e = ViewClientError msg)
           /\ (failed_attempts (trace_of run) = [1%nat]
               \/ failed_attempts (trace_of run) = [1%nat; 2%nat]))
   end)
  /\ (forall (d1 d2 d3 : Dev) (t3 : list Event),
        start_chat_absent d d1 ->
        start_chat_absent d1 d2 ->
        attempt_body phone_number message draft 2 d2 = (d3, t3, Ok ReturnTrue) ->
        send_sms phone_number message draft d
        = (d3,
           [EDump; EFindViewById START_CHAT_ID; EFindViewsContainingText "Start chat";
            EPrint (MsgNoStartChat 1 3); ESleep 2000;
            EDump; EFindViewById START_CHAT_ID; EFindViewsContainingText "Start chat";
            EPrint (MsgNoStartChat 2 3); ESleep 2000] ++ t3,
           Ok true)).
Proof.
  split; [apply (send_sms_post phone_number message draft d)|].
  intros d1 d2 d3 t3 Habs1 Habs2 Hthird.
  unfold send_sms. simpl.
  rewrite (bind_ok _ _ _ _ _ _ (attempt_step_absent _ _ _ 0 _ _ Habs1)). cbv beta iota.
  rewrite (bind_ok _ _ _ _ _ _ (attempt_step_absent _ _ _ 1 _ _ Habs2)). cbv beta iota.
  assert (Hstep : attempt_step phone_number message draft 2 d2 = (d3, t3, Ok ReturnTrue))
    by (by apply try_catch_ok).
  rewrite (bind_ok _ _ _ _ _ _ Hstep). simpl.
  by rewrite app_nil_r.
Qed.

Lemma send_sms_three_attempts_witness :
  result_of (@send_sms nat (simulated late_start_chat) "+14155552671" "hi" false 0%nat)
  = Ok true.
Proof.
  erewrite (proj2 (@send_sms_three_attempts nat (simulated late_start_chat)
                     "+14155552671" "hi" false 0%nat) 3%nat 6%nat);
    [reflexivity
    |exists 1%nat, 2%nat; split_and!; reflexivity
    |exists 4%nat, 5%nat; split_and!; reflexivity
    |vm_compute; reflexivity].
Defined.

(** ** Exceptions inside an attempt *)

Section AttemptExceptFacts.
Context {Dev : Type} `{ViewClient Dev}.
Variables (phone_number message : string) (draft : bool).

Lemma attempt_except_post (attempt : nat) (e : exn) :
  post (attempt_except attempt e)
       (fun t r => exists t2,
            t = EPrint (MsgErrorOnAttempt (attempt + 1) (str e)) :: t2
            /\ unwinding attempt t2 r).
Proof.
  unfold attempt_except, unwinding.
  post_steps; simpl; eexists; (split; [reflexivity|]); simpl;
    split_and?; eauto; vm_compute; lia.
Qed.

End AttemptExceptFacts.

(** C6, as stated, fails: on a device whose snapshot always raises, the
    third attempt raises as the first two do, but no back-key event follows
    it; the three failed attempts are unwound by six back-key events in all,
    and [send_sms] then raises its own error. *)
Lemma last_attempt_not_unwound :
  result_of (@attempt_body nat (simulated no_snapshot) "+14155552671" "hi" false 2 0%nat)
    = Raise (ViewClientError "snapshot failed")
  /\ @attempt_step nat (simulated no_snapshot) "+14155552671" "hi" false 2 0%nat
     = (1%nat, [EDump; EPrint (MsgErrorOnAttempt 3 "snapshot failed")], Ok Continue)
  /\ back_keys (trace_of (@attempt_step nat (simulated no_snapshot)
                            "+14155552671" "hi" false 2 0%nat)) = 0%nat
  /\ failed_attempts (trace_of (@send_sms nat (simulated no_snapshot)
                                  "+14155552671" "hi" false 0%nat))
     = [1%nat; 2%nat; 3%nat]
  /\ back_keys (trace_of (@send_sms nat (simulated no_snapshot)
                            "+14155552671" "hi" false 0%nat)) = 6%nat
  /\ result_of (@send_sms nat (simulated no_snapshot) "+14155552671" "hi" false 0%nat)
     = Raise (send_failed "+14155552671").
Proof. split_and!; vm_compute; reflexivity. Qed.

(** C6, amended.  When the body of an attempt raises, the exception is caught
    and reported.  In an attempt other than the last, the script then sends
    three raw back-key events and goes on to the next attempt, unless one of
    these key events raises in turn, which ends the call with that
    exception.  In the last attempt nothing is sent: the loop ends and
    [send_sms] raises its own error.  In both cases an attempt that ends
    with [continue] hands over to the rest of the loop, and an exception
    that leaves the attempt leaves [send_sms]. *)
Theorem attempt_exception_unwound {Dev : Type} `{ViewClient Dev}
    (phone_number message : string) (draft : bool) (attempt : nat)
    (d d1 : Dev) (t1 : list Event) (e : exn) :
  attempt_body phone_number message draft attempt d = (d1, t1, Raise e) ->
  let run := attempt_step phone_number message draft attempt d in
  (exists t2,
     trace_of run = t1 ++ EPrint (MsgErrorOnAttempt (attempt + 1) (str e)) :: t2
     /\ if decide (attempt < max_retries - 1)%nat then
          match result_of run with
          | Ok c =>
              c = Continue
              /\ t2 = [EPrint MsgRetryingAfterError; ESleep 2000;
                       EShell KEYCODE_BACK; ESleep 1000;
                       EShell KEYCODE_BACK; ESleep 1000;
                       EShell KEYCODE_BACK; ESleep 1000; ESleep 2000]
              /\ back_keys t2 = 3%nat
          | Raise e' =>
              (exists msg, e' = ViewClientError msg)
              /\ (1 <= back_keys t2 <= 3)%nat
              /\ last t2 = Some (EShell KEYCODE_BACK)
          end
        else t2 = [] /\ result_of run = Ok Continue)
  /\ (forall rest,
        result_of run = Ok Continue ->
        let next := send_sms_loop phone_number message draft rest (state_of run) in
        send_sms_loop phone_number message draft (attempt :: rest) d
        = (state_of next, trace_of run ++ trace_of next, result_of next))
  /\ (result_of run = Ok Continue ->
      result_of (send_sms_loop phone_number message draft [attempt] d)
      = Raise (send_failed phone_number))
  /\ (forall rest e',
        result_of run = Raise e' ->
        result_of (send_sms_loop phone_number message draft (attempt :: rest) d)
        = Raise e').
Proof.
  intros Hbody run. split_and!.
  - subst run. unfold attempt_step. rewrite (try_catch_raise _ _ _ _ _ _ Hbody).
    destruct (attempt_except_post attempt e d1)
      as (t2 & Ht & Hun).
    exists t2. unfold trace_of at 1, result_of at 1. simpl. rewrite Ht. split; [done|].
    exact Hun.
  - intros rest Hcont next. simpl.
    rewrite (bind_ok _ _ _ _ _ _ (eq_trans (run_eta run) (f_equal _ Hcont))).
    reflexivity.
  - intros Hcont. simpl.
    rewrite (bind_ok _ _ _ _ _ _ (eq_trans (run_eta run) (f_equal _ Hcont))).
    reflexivity.
  - intros rest e' Hraise. simpl.
    by rewrite (bind_raise _ _ _ _ _ _ (eq_trans (run_eta run) (f_equal _ Hraise))).
Qed.

Lemma attempt_exception_unwound_witness :
  exists t2,
    trace_of (@attempt_step nat (simulated no_snapshot) "+14155552671" "hi" false 0 0%nat)
    = [EDump] ++ EPrint (MsgErrorOnAttempt 1 "snapshot failed") :: t2
    /\ back_keys t2 = 3%nat.
Proof.
  destruct (@attempt_exception_unwound nat (simulated no_snapshot)
              "+14155552671" "hi" false 0 0%nat 1%nat [EDump]
              (ViewClientError "snapshot failed") eq_refl)
    as ((t2 & Ht & Hun) & _).
  exists t2. split; [exact Ht|].
  vm_compute in Hun. destruct Hun as (_ & _ & Hkeys). exact Hkeys.
Defined.

(** ** Returning to the main screen *)

Section NavigatorFacts.
Context {Dev : Type} `{ViewClient Dev}.



(** The [except] clause: its two key events, and how it ends. *)
Lemma go_back_fallback_run (e : exn) (d : Dev) :
  match vc_shell KEYCODE_BACK d with
  | (d1, Fails msg) =>
      go_back_fallback e d
      = (d1, [EPrint (MsgErrorNavigatingBack (str e)); EPrint MsgFallbackHardwareBack;
              EShell KEYCODE_BACK],
         Raise (ViewClientError msg))
  | (d1, Fine _) =>
      match vc_shell KEYCODE_BACK d1 with
      | (d2, Fails msg) =>
          go_back_fallback e d
          = (d2, [EPrint (MsgErrorNavigatingBack (str e));
                  EPrint MsgFallbackHardwareBack;
                  EShell KEYCODE_BACK; ESleep 2000; EShell KEYCODE_BACK],
             Raise (ViewClientError msg))
      | (d2, Fine _) =>
          go_back_fallback e d
          = (d2, [EPrint (MsgErrorNavigatingBack (str e));
                  EPrint MsgFallbackHardwareBack;
                  EShell KEYCODE_BACK; ESleep 2000; EShell KEYCODE_BACK; ESleep 2000],
             Ok false)
      end
  end.
Proof.
  unfold go_back_fallback, shell, bind, call, print. simpl.
  destruct (vc_shell KEYCODE_BACK d) as [d1 [[]|msg]]; simpl; [|done].
  by destruct (vc_shell KEYCODE_BACK d1) as [d2 [[]|msg]].
Qed.

End NavigatorFacts.




(** ** The loop of [main] *)

Lemma sends_completed_app (t1 t2 : list Event) :
  sends_completed (t1 ++ t2) = (sends_completed t1 + sends_completed t2)%nat.
Proof. unfold sends_completed. by rewrite List.filter_app, length_app. Qed.

Lemma deletions_app (t1 t2 : list Event) :
  deletions (t1 ++ t2) = (deletions t1 + deletions t2)%nat.
Proof. unfold deletions. by rewrite List.filter_app, length_app. Qed.

Lemma processed_app (t1 t2 : list Event) :
  processed (t1 ++ t2) = processed t1 ++ processed t2.
Proof. apply collect_app. Qed.

Lemma failed_recipients_app (t1 t2 : list Event) :
  failed_recipients (t1 ++ t2) = failed_recipients t1 ++ failed_recipients t2.
Proof. apply collect_app. Qed.

Lemma silent_neutral (t : list Event) :
  Forall (fun ev => tally_neutral ev = true) t -> silent t.
Proof.
  unfold silent. induction 1 as [|ev t Hev _ (IH1 & IH2 & IH3 & IH4)]; [done|].
  unfold sends_completed, deletions, processed, failed_recipients in *. simpl.
  destruct ev as [| | | | | | | | | |[]|]; simpl in *; try done.
Qed.

Lemma silent_app (t1 t2 : list Event) : silent t1 -> silent t2 -> silent (t1 ++ t2).
Proof.
  unfold silent. intros (H1 & H2 & H3 & H4) (H1' & H2' & H3' & H4').
  rewrite sends_completed_app, deletions_app, processed_app, failed_recipients_app.
  rewrite H1, H2, H3, H4, H1', H2', H3', H4'. done.
Qed.

Section OrchestratorFacts.
Context {Dev : Type} `{ViewClient Dev}.
Variables (draft delete : bool) (delay : Z) (message : string).

Lemma go_back_neutral :
  emits (fun ev => tally_neutral ev = true) go_back_to_main_screen.
Proof.
  unfold go_back_to_main_screen, go_back_body, back_twice, press_back,
    verify_main_screen, go_back_fallback.
  emits_steps.
Qed.

(** The navigation counts for nothing, and returns when the recovery
    always does. *)
Lemma go_back_post :
  post go_back_to_main_screen
       (fun t r => silent t /\ (recovery_returns Dev -> exists b, r = Ok b)).
Proof.
  intros d. split; [apply silent_neutral, go_back_neutral|].
  intros Hrec. apply Hrec.
Qed.

Lemma delete_last_sms_neutral :
  emits (fun ev => tally_neutral ev = true) delete_last_sms.
Proof. unfold delete_last_sms. emits_steps. Qed.

(** [delete_last_sms] always returns, and its last act is to print one of
    its five closing lines. *)
Lemma delete_last_sms_returns :
  post delete_last_sms
       (fun t r => r = Ok tt
                   /\ exists t0 m, t = t0 ++ [EPrint m] /\ deletion_report m).
Proof.
  unfold delete_last_sms, deletion_report.
  post_steps; simpl; (split; [reflexivity|]).
  all: lazymatch goal with
       | |- exists t0 m, ?t = _ /\ _ =>
           exists (removelast t); eexists; split; [simpl; reflexivity|eauto 10]
       end.
Qed.

Lemma attempt_step_send (phone_number : string) (attempt : nat) :
  post (attempt_step phone_number message draft attempt)
       (fun t r => deletions t = 0%nat /\ processed t = [] /\ failed_recipients t = []
                   /\ sends_completed t = match r with
                                          | Ok ReturnTrue => 1%nat
                                          | _ => 0%nat
                                          end).
Proof.
  unfold attempt_step, attempt_body, attempt_except.
  post_steps; vm_compute; done.
Qed.

Lemma send_sms_loop_send (phone_number : string) (attempts : list nat) :
  post (send_sms_loop phone_number message draft attempts) one_send.
Proof.
  induction attempts as [|attempt rest IH]; simpl.
  - by apply post_raise.
  - eapply post_bind_with; [apply attempt_step_send|..]; simpl.
    + intros t1 [|] (Hd & Hp & Hf & Hs).
      * eapply post_mono; [apply IH|]. intros t2 r (Hd' & Hp' & Hf' & Hs').
        unfold one_send.
        rewrite deletions_app, processed_app, failed_recipients_app,
          sends_completed_app, Hd, Hp, Hf, Hs, Hd', Hp', Hf', Hs'. done.
      * apply post_ret. unfold one_send. by rewrite app_nil_r.
    + intros t1 e (Hd & Hp & Hf & Hs). done.
Qed.

Lemma send_sms_send (phone_number : string) :
  post (send_sms phone_number message draft) one_send.
Proof. apply send_sms_loop_send. Qed.

End OrchestratorFacts.

(** Counting over a trace assembled from pieces whose counts are known. *)
Ltac tally :=
  unfold silent, one_send, sends_completed, deletions, processed, failed_recipients in *;
  destruct_and?;
  repeat (progress (simpl; rewrite ?List.filter_app, ?length_app, ?collect_app));
  repeat match goal with
         | Heq : length (List.filter _ ?t) = _ |- _ => rewrite Heq; clear Heq
         | Heq : collect _ ?t = _ |- _ => rewrite Heq; clear Heq
         end; simpl.

Ltac tallied := tally; split_and?; try done; try lia.

Section LoopFacts.
Context {Dev : Type} `{ViewClient Dev}.
Variables (draft delete : bool) (delay : Z) (message : string).

Lemma recover_post (phone_number : string) (e : exn) :
  post (recover phone_number e)
       (fun t r => sends_completed t = 0%nat /\ deletions t = 0%nat
                   /\ processed t = [] /\ failed_recipients t = [phone_number]
                   /\ (recovery_returns Dev -> r = Ok tt)).
Proof.
  unfold recover. do 4 post_step.
  eapply post_bind_with; [apply go_back_post|..]; simpl.
  - intros t1 b (Hsil & Hret). apply post_sleep; [lia|]. tally. done.
  - intros t1 e' (Hsil & Hret). tally. split_and!; try done.
    intros Hrec. by destruct (Hret Hrec).
Qed.

Lemma delete_last_sms_post :
  post delete_last_sms (fun t r => silent t /\ r = Ok tt).
Proof.
  intros d. split; [apply silent_neutral, delete_last_sms_neutral|].
  apply delete_last_sms_returns.
Qed.

(** After a send: at most one deletion, none when deleting is off, one
    when it is on and the navigation returns. *)
Lemma after_send_post (i n : nat) :
  post (after_send delete delay i n)
       (fun t _ => sends_completed t = 0%nat /\ processed t = []
                   /\ failed_recipients t = []
                   /\ (deletions t <= 1)%nat
                   /\ (delete = false -> deletions t = 0%nat)
                   /\ (recovery_returns Dev ->
                       deletions t = if delete then 1%nat else 0%nat)).
Proof.
  unfold after_send. do 2 post_step.
  eapply post_bind_with; [apply go_back_post|..]; simpl.
  2:{ intros t1 e (Hsil & Hret). tally. split_and!; try done; try lia.
      intros Hrec. by destruct (Hret Hrec). }
  intros t1 b (Hsil & _). destruct delete.
  - do 3 post_step.
    eapply post_mono; [apply delete_last_sms_post|]. simpl.
    intros t2 r (Hsil2 & ->). case_decide.
    + do 2 post_step. apply post_sleep_any; [|intros msg]; tallied.
    + post_step. tallied.
  - do 2 post_step. case_decide.
    + do 2 post_step. apply post_sleep_any; [|intros msg]; tallied.
    + post_step. tallied.
Qed.

Lemma try_send_post (phone_number : string) :
  post (try_catch (send_sms phone_number message draft;; ret true)
                  (fun e => recover phone_number e;; ret false))
       (try_send_outcome Dev phone_number).
Proof.
  eapply post_try_catch_with
    with (Qm := fun t r => one_send t r /\ forall a, r = Ok a -> a = true).
  - eapply post_bind_with; [apply send_sms_send|..]; simpl.
    + intros t1 b Hone. apply post_ret. rewrite app_nil_r. split; [done|].
      by intros a [= <-].
    + done.
  - intros t1 a (Hone & Ha). rewrite (Ha a eq_refl).
    unfold try_send_outcome. tallied.
  - intros t1 e (Hone & _).
    eapply post_bind_with; [apply recover_post|..]; simpl.
    + intros t2 [] Hrec. apply post_ret. unfold try_send_outcome. tallied.
    + intros t2 e' (Hs & Hd & Hp & Hf & Hret). unfold try_send_outcome. tallied.
      intros Hrec. by specialize (Hret Hrec).
Qed.

Lemma process_recipient_post (i n : nat) (phone_number : string) (c : nat) :
  post (process_recipient draft delete delay message i n phone_number c)
       (recipient_outcome Dev delete phone_number c).
Proof.
  unfold process_recipient. do 2 post_step.
  eapply post_bind_with; [apply try_send_post|..]; simpl.
  2:{ intros t1 e (Hd & Hp & Hs & Hf & Hnot). unfold recipient_outcome. tallied. }
  intros t1 [|] (Hd & Hp & Hs & Hf).
  2:{ apply post_ret. unfold recipient_outcome. tallied.
      - intros c' [= <-]. lia.
      - intros _. split; [eauto|]. by destruct delete. }
  unfold recipient_outcome.
  eapply post_bind_with
    with (Qm := fun t r =>
                  sends_completed t = 0%nat /\ processed t = []
                  /\ (deletions t <= 1)%nat
                  /\ (delete = false -> deletions t = 0%nat)
                  /\ (recovery_returns Dev ->
                      r = Ok tt /\ deletions t = if delete then 1%nat else 0%nat)).
  - eapply post_try_catch_with; [apply after_send_post|..]; simpl.
    + intros t2 [] (Hs2 & Hp2 & Hf2 & Hd2 & Hoff & Hon). split_and!; auto.
    + intros t2 e (Hs2 & Hp2 & Hf2 & Hd2 & Hoff & Hon).
      eapply post_mono; [apply recover_post|]. simpl.
      intros t3 r (Hs3 & Hd3 & Hp3 & Hf3 & Hret).
      rewrite sends_completed_app, deletions_app, processed_app, Hs2, Hp2, Hs3, Hd3, Hp3.
      split_and!; try done; try lia.
      * intros Hdel. rewrite Hoff; auto.
      * intros Hrec. rewrite Hon; auto.
  - intros t2 [] (Hs2 & Hp2 & Hd2 & Hoff & Hon). apply post_ret. tally.
    split_and!; try done; try lia.
    + intros Hdel. rewrite Hoff; auto.
    + intros c' [= <-]. lia.
    + intros Hrec. destruct (Hon Hrec) as [_ ->]. split; [eauto|]. by destruct delete.
  - intros t2 e (Hs2 & Hp2 & Hd2 & Hoff & Hon). tally.
    split_and!; try done; try lia.
    intros Hrec. by destruct (Hon Hrec).
Qed.

End LoopFacts.
Section MainLoopFacts.
Context {Dev : Type} `{ViewClient Dev}.
Variables (draft delete : bool) (delay : Z) (message : string).

Lemma main_loop_post (phone_numbers : list string) (i n c : nat) :
  post (main_loop draft delete delay message i n phone_numbers c)
       (loop_outcome Dev delete phone_numbers c).
Proof.
  revert i c. induction phone_numbers as [|p rest IH]; intros i c; simpl.
  - apply post_ret. unfold loop_outcome. tallied.
    + intros c' [= <-]. split_and!; [lia|done|simpl; lia].
    + intros _. split; [eauto|]. by destruct delete.
  - eapply post_bind_with; [apply process_recipient_post|..]; simpl.
    + intros t1 c1 (Hp & Hd & Hoff & Hf & Hc & Hrec).
      eapply post_mono; [apply IH|].
      intros t2 r ((Hd2 & Hs2) & Hoff2 & Hc2 & Hrec2). unfold loop_outcome.
      rewrite deletions_app, sends_completed_app, processed_app,
        failed_recipients_app, length_app.
      specialize (Hc c1 eq_refl). subst c1.
      split_and!; try (simpl; lia).
      * intros Hdel. rewrite Hoff, Hoff2; auto.
      * intros c' ->. destruct (Hc2 c' eq_refl) as (-> & -> & Hlen).
        rewrite Hp. split_and!; [lia|done|].
        assert (1 <= sends_completed t1 + length (failed_recipients t1))%nat.
        { destruct (sends_completed t1) eqn:Hs1; [|lia]. rewrite Hf; simpl; lia. }
        simpl. lia.
      * intros Hret. destruct (Hrec Hret) as [_ Hd1].
        destruct (Hrec2 Hret) as [Hok Hd2']. split; [done|].
        rewrite Hd1, Hd2'. by destruct delete.
    + intros t1 e (Hp & Hd & Hoff & Hf & Hc & Hrec). unfold loop_outcome.
      split_and!; try done; try (simpl; lia).
Qed.

Lemma recover_no_report (phone_number : string) (e : exn) :
  emits (fun ev => reported_tally ev = None) (recover phone_number e).
Proof.
  unfold recover, go_back_to_main_screen, go_back_body, back_twice, press_back,
    verify_main_screen, go_back_fallback.
  emits_steps.
Qed.

Lemma main_loop_no_report (phone_numbers : list string) (i n c : nat) :
  emits (fun ev => reported_tally ev = None)
        (main_loop draft delete delay message i n phone_numbers c).
Proof.
  revert i c. induction phone_numbers as [|p rest IH]; intros i c; simpl.
  - apply emits_ret.
  - apply emits_bind; [|intros ?; apply IH].
    unfold process_recipient.
    apply emits_bind; [apply emits_print; reflexivity|intros _].
    apply emits_bind.
    + apply emits_try_catch.
      * apply emits_bind; [|intros ?; apply emits_ret].
        apply send_sms_loop_emits. intros attempt.
        unfold attempt_step, attempt_body, attempt_except. emits_steps.
      * intros e. apply emits_bind; [apply recover_no_report|intros ?; apply emits_ret].
    + intros [|]; [|apply emits_ret].
      apply emits_bind; [|intros ?; apply emits_ret].
      apply emits_try_catch; [|apply recover_no_report].
      unfold after_send, delete_last_sms, go_back_to_main_screen, go_back_body,
        back_twice, press_back, verify_main_screen, go_back_fallback.
      emits_steps.
Qed.

End MainLoopFacts.

(** When the back key never raises, the return-to-home navigation always
    returns. *)
Lemma recovery_returns_back_key {Dev : Type} `{ViewClient Dev} :
  (forall d : Dev, exists d', vc_shell KEYCODE_BACK d = (d', Fine tt)) ->
  recovery_returns Dev.
Proof.
  intros Hkey d. unfold go_back_to_main_screen. rewrite try_catch_unfold.
  destruct (go_back_body d) as [[d1 t1] [b|e]]; cbn [result_of state_of trace_of fst snd].
  - by exists b.
  - pose proof (go_back_fallback_run e d1) as Hfb.
    destruct (Hkey d1) as [d2 Hk1]. destruct (Hkey d2) as [d3 Hk2].
    rewrite Hk1, Hk2 in Hfb. rewrite Hfb. by exists false.
Qed.

(** ** A recipient whose send raises *)

Section FailedSendFacts.
Context {Dev : Type} `{ViewClient Dev}.
Variables (draft delete : bool) (delay : Z) (message : string).

Lemma send_sms_no_deletion_or_delay (phone_number : string) :
  emits (fun ev => deletion_or_delay ev = false)
        (send_sms phone_number message draft).
Proof.
  apply send_sms_loop_emits. intros attempt.
  unfold attempt_step, attempt_body, attempt_except. emits_steps.
Qed.

Lemma go_back_no_deletion_or_delay :
  emits (fun ev => deletion_or_delay ev = false) go_back_to_main_screen.
Proof.
  unfold go_back_to_main_screen, go_back_body, back_twice, press_back,
    verify_main_screen, go_back_fallback.
  emits_steps.
Qed.

(** The pass of the loop over a recipient whose send raises, spelled out. *)
Lemma process_recipient_failed (i n : nat) (phone_number : string) (c : nat)
    (d d1 : Dev) (t1 : list Event) (e : exn) :
  send_sms phone_number message draft d = (d1, t1, Raise e) ->
  let nav := go_back_to_main_screen d1 in
  process_recipient draft delete delay message i n phone_number c d
  = (state_of nav,
     EPrint (MsgProcessing phone_number) :: t1
     ++ [EPrint (MsgFailedToSend phone_number (str e)); EPrint MsgAttemptingRecover]
     ++ trace_of nav
     ++ match result_of nav with Ok _ => [ESleep 1000] | Raise _ => [] end,
     match result_of nav with Ok _ => Ok c | Raise e' => Raise e' end).
Proof.
  intros Hsend nav. unfold process_recipient.
  assert (Htry :
    try_catch (send_sms phone_number message draft;; ret true)
              (fun e => recover phone_number e;; ret false) d
    = (state_of nav,
       t1 ++ [EPrint (MsgFailedToSend phone_number (str e)); EPrint MsgAttemptingRecover]
       ++ trace_of nav
       ++ match result_of nav with Ok _ => [ESleep 1000] | Raise _ => [] end,
       match result_of nav with Ok _ => Ok false | Raise e' => Raise e' end)).
  { rewrite (try_catch_raise _ _ _ _ _ _ (bind_raise _ _ _ _ _ _ Hsend)).
    unfold recover, bind, print, sleep. subst nav. simpl.
    destruct (go_back_to_main_screen d1) as [[d2 t2] [b|e']]; simpl.
    - by rewrite app_nil_r.
    - by rewrite app_nil_r. }
  unfold bind at 1. unfold print at 1. unfold bind at 1. rewrite Htry.
  destruct (result_of nav); simpl; [|done].
  by rewrite !app_nil_r.
Qed.

End FailedSendFacts.

(** C10.  When [send_sms] raises for a recipient, the pass of the loop over
    that recipient consists of the send, the two lines that report the
    failure, the return-to-home navigation and, when that returns, a pause
    of one second; the tally is unchanged.  Nothing of the deletion step or
    of the delay between messages appears in its trace, even with delete
    mode on, and the loop moves on to the next recipient. *)
Theorem failed_send_skips_deletion_and_delay {Dev : Type} `{ViewClient Dev}
    (draft delete : bool) (delay : Z) (message : string)
    (i n : nat) (phone_number : string) (c : nat)
    (d d1 : Dev) (t1 : list Event) (e : exn) :
  send_sms phone_number message draft d = (d1, t1, Raise e) ->
  let step := process_recipient draft delete delay message i n phone_number c d in
  let nav := go_back_to_main_screen d1 in
  trace_of step
  = EPrint (MsgProcessing phone_number) :: t1
    ++ [EPrint (MsgFailedToSend phone_number (str e)); EPrint MsgAttemptingRecover]
    ++ trace_of nav
    ++ match result_of nav with Ok _ => [ESleep 1000] | Raise _ => [] end
  /\ result_of step = match result_of nav with Ok _ => Ok c | Raise e' => Raise e' end
  /\ Forall (fun ev => deletion_or_delay ev = false) (trace_of step)
  /\ forall rest,
       (exists b, result_of nav = Ok b) ->
       let next := main_loop draft delete delay message (S i) n rest c (state_of step) in
       main_loop draft delete delay message i n (phone_number :: rest) c d
       = (state_of next, trace_of step ++ trace_of next, result_of next).
Proof.
  intros Hsend step nav.
  pose proof (process_recipient_failed draft delete delay message i n phone_number c
                d d1 t1 e Hsend) as Hstep.
  fold nav in Hstep. fold step in Hstep.
  split_and!.
  - by rewrite Hstep.
  - by rewrite Hstep.
  - rewrite Hstep. cbn [trace_of fst snd].
    constructor; [reflexivity|].
    pose proof (send_sms_no_deletion_or_delay draft message phone_number d) as Hs.
    simpl in Hs. rewrite Hsend in Hs.
    pose proof (go_back_no_deletion_or_delay d1) as Hn. simpl in Hn.
    apply Forall_app. split; [exact Hs|].
    repeat (constructor; [reflexivity|]).
    apply Forall_app. split; [exact Hn|].
    destruct (result_of nav); by repeat constructor.
  - intros rest [b Hb] next. simpl.
    assert (Hok : step = (state_of step, trace_of step, Ok c)).
    { rewrite (run_eta step) at 1. f_equal. rewrite Hstep. cbn [result_of snd].
      by rewrite Hb. }
    rewrite (bind_ok _ _ _ _ _ _ Hok). reflexivity.
Qed.

Lemma failed_send_skips_deletion_and_delay_witness :
  Forall (fun ev => deletion_or_delay ev = false)
         (trace_of (@process_recipient nat (simulated empty_screen) false true 5 "hi"
                      0 2 "+14155552671" 0 0%nat)).
Proof.
  eapply (@failed_send_skips_deletion_and_delay nat (simulated empty_screen)
            false true 5 "hi" 0 2 "+14155552671" 0 0%nat).
  vm_compute. reflexivity.
Defined.

(** ** Deleting the conversation *)

Section CleanupFacts.
Context {Dev : Type} `{ViewClient Dev}.




End CleanupFacts.

(** ** The whole run *)

Section RunFacts.
Context {Dev : Type} `{ViewClient Dev}.
Variables (serialno : option string) (draft delete : bool) (delay : Z) (message : string).

Lemma report_run (success_count total : nat) (d : Dev) :
  total <> 0%nat ->
  report success_count total d
  = (d,
     [EPrint (MsgCompleted success_count total);
      EPrint (MsgSuccessRate success_count total)]
     ++ (if decide (success_count < total)%nat
         then [EPrint (MsgFailedMessages (total - success_count))] else [])
     ++ [EPrint MsgAllDone],
     Ok tt).
Proof.
  intros Htotal. unfold report, bind, print. simpl.
  destruct (decide (total = 0%nat)); [done|]. simpl.
  by destruct (decide (success_count < total)%nat).
Qed.

(** The outer [try] once the device is connected and the application is
    open. *)
Lemma run_connected (phone_numbers : list string) (d d1 d2 : Dev) :
  vc_connectToDeviceOrExit serialno d = (d1, Fine tt) ->
  vc_shell am_start d1 = (d2, Fine tt) ->
  let loop := main_loop draft delete delay message 0 (length phone_numbers)
                        phone_numbers 0 d2 in
  let opening :=
    [EPrint MsgConnecting; EConnect serialno; EPrint MsgConnected; EPrint MsgOpening;
     EShell am_start; ESleep 3000; EPrint MsgLaunched; EPrint MsgStarting] in
  run serialno draft delete delay message phone_numbers d
  = match result_of loop with
    | Ok c =>
        let rep := report c (length phone_numbers) (state_of loop) in
        (state_of rep, opening ++ trace_of loop ++ trace_of rep,
         match result_of rep with Ok _ => Ok c | Raise e => Raise e end)
    | Raise e => (state_of loop, opening ++ trace_of loop, Raise e)
    end.
Proof.
  intros Hconn Hopen loop opening.
  unfold run, open_messages, connectToDeviceOrExit, shell.
  assert (Hom : (call (EShell am_start) (vc_shell am_start);; sleep 3000) d1
                = (d2, [EShell am_start; ESleep 3000], Ok tt)).
  { rewrite (bind_ok _ _ _ _ _ _ (call_fine _ _ _ _ _ Hopen)). reflexivity. }
  rewrite bind_print, (bind_ok _ _ _ _ _ _ (call_fine _ _ _ _ _ Hconn)).
  cbv beta. rewrite !bind_print, (bind_ok _ _ _ _ _ _ Hom). cbv beta.
  rewrite !bind_print, bind_unfold. fold loop.
  destruct (result_of loop) as [c|e] eqn:Hres.
  - rewrite bind_unfold.
    destruct (result_of (report c (length phone_numbers) (state_of loop))) eqn:Hrep;
      cbn [state_of trace_of result_of fst snd]; rewrite ?Hrep; simpl.
    + unfold ret, state_of, trace_of. simpl. by rewrite app_nil_r.
    + done.
  - done.
Qed.
End RunFacts.

Lemma collect_none {A} (f : Event -> option A) (t : list Event) :
  Forall (fun ev => f ev = None) t -> collect f t = [].
Proof. induction 1 as [|ev t Hev _ IH]; simpl; [done|]. by rewrite Hev. Qed.

Lemma get_phone_numbers_nonempty `{PhoneNumbers} (fs : filesystem) (file_path : string)
    (phone_numbers : list string) :
  get_phone_numbers fs file_path = Loaded phone_numbers -> phone_numbers <> [].
Proof.
  unfold get_phone_numbers. destruct (fs file_path) as [f|]; [|done].
  case_decide as Hne; [done|]. intros [= <-] Hnil.
  apply Hne, leibniz_equiv, elements_empty_iff.
  apply Permutation_nil_r. rewrite <- Hnil. symmetry. apply merge_sort_Permutation.
Qed.

(** ** A recipient whose send returns, and exceptions that leave the loop *)

Section SentFacts.
Context {Dev : Type} `{ViewClient Dev}.
Variables (draft delete : bool) (delay : Z) (message : string).


(** The pass of the loop over a recipient whose send returns. *)
Lemma process_recipient_sent (i n : nat) (phone_number : string) (c : nat)
    (d d1 : Dev) (t1 : list Event) (b : bool) :
  send_sms phone_number message draft d = (d1, t1, Ok b) ->
  let after := after_send delete delay i n d1 in
  let pass := process_recipient draft delete delay message i n phone_number c d in
  trace_of pass
  = EPrint (MsgProcessing phone_number) :: t1 ++ trace_of after
    ++ match result_of after with
       | Ok _ => []
       | Raise e => trace_of (recover phone_number e (state_of after))
       end
  /\ result_of pass
     = match result_of after with
       | Ok _ => Ok (S c)
       | Raise e =>
           match result_of (recover phone_number e (state_of after)) with
           | Ok _ => Ok (S c)
           | Raise e' => Raise e'
           end
       end.
Proof.
  intros Hsend after pass. subst pass. unfold process_recipient.
  assert (Htry :
    try_catch (send_sms phone_number message draft;; ret true)
              (fun e => recover phone_number e;; ret false) d
    = (d1, t1, Ok true)).
  { apply try_catch_ok. rewrite (bind_ok _ _ _ _ _ _ Hsend).
    unfold ret, state_of, trace_of, result_of. simpl. by rewrite app_nil_r. }
  rewrite bind_print, (bind_ok _ _ _ _ _ _ Htry). cbv beta iota.
  rewrite bind_unfold, try_catch_unfold. fold after.
  destruct (result_of after) as [[]|e] eqn:Hafter.
  - rewrite Hafter. unfold ret, state_of, trace_of, result_of. simpl.
    by rewrite !app_nil_r.
  - cbn [result_of state_of trace_of fst snd].
    destruct (result_of (recover phone_number e (state_of after))) as [[]|e'];
      unfold ret, state_of, trace_of, result_of; simpl; by rewrite ?app_nil_r.
Qed.





End SentFacts.

Section RecoveryFacts.
Context {Dev : Type} `{ViewClient Dev}.
Variables (draft delete : bool) (delay : Z) (message : string).

(** An exception that leaves the [except] clause of the loop is one that
    left its return-to-home navigation. *)
Lemma recover_raises (phone_number : string) (e e' : exn) (d : Dev) :
  result_of (recover phone_number e d) = Raise e' ->
  result_of (go_back_to_main_screen d) = Raise e'.
Proof.
  unfold recover. rewrite !bind_print, bind_unfold.
  destruct (result_of (go_back_to_main_screen d)) as [b|e0];
    cbn [result_of state_of trace_of fst snd].
  - unfold sleep. case_decide; [lia|]. intros [=].
  - by intros [= ->].
Qed.

Lemma process_recipient_raises (i n : nat) (phone_number : string) (c : nat)
    (d : Dev) (e' : exn) :
  result_of (process_recipient draft delete delay message i n phone_number c d)
  = Raise e' ->
  exists dr, result_of (go_back_to_main_screen dr) = Raise e'.
Proof.
  destruct (send_sms phone_number message draft d) as [[d1 t1] [b|e]] eqn:Hsend.
  - destruct (process_recipient_sent draft delete delay message i n phone_number c
                d d1 t1 b Hsend) as [_ ->].
    destruct (result_of (after_send delete delay i n d1)) as [[]|e0]; [done|].
    destruct (result_of (recover phone_number e0 _)) as [[]|e1] eqn:Hrec; [done|].
    intros [= <-]. eexists. eapply recover_raises. exact Hrec.
  - rewrite (process_recipient_failed draft delete delay message i n phone_number c
               d d1 t1 e Hsend).
    cbn [result_of snd].
    destruct (result_of (go_back_to_main_screen d1)) as [b|e0] eqn:Hnav; [done|].
    intros [= <-]. by exists d1.
Qed.

Lemma main_loop_raises (phone_numbers : list string) (i n c : nat) (d : Dev) (e' : exn) :
  result_of (main_loop draft delete delay message i n phone_numbers c d) = Raise e' ->
  exists dr, result_of (go_back_to_main_screen dr) = Raise e'.
Proof.
  revert i c d. induction phone_numbers as [|p rest IH]; intros i c d; simpl; [done|].
  rewrite bind_unfold.
  destruct (result_of (process_recipient draft delete delay message i n p c d))
    as [c'|e] eqn:Hpass; cbn [result_of snd].
  - apply IH.
  - intros [= <-]. by eapply process_recipient_raises.
Qed.

End RecoveryFacts.

(** C2, as stated, fails: with two recipients on a device that shows no
    Start Chat button and is lost after the third attempt for the first
    recipient, [send_sms] raises for the first recipient, the recovery
    navigation raises in turn, the second recipient is never taken up and
    the process ends with code 1. *)
Lemma failed_recovery_stops_run :
  get_phone_numbers (H := toy_phonenumbers)
                    (files (Some ["+1001"; "+1002"]) (Some ["hello"])) "numbers.txt"
    = Loaded ["+1001"; "+1002"]
  /\ result_of (@send_sms nat (simulated (goes_offline 11)) "+1001" "hello" false 2%nat)
     = Raise (send_failed "+1001")
  /\ processed (snd (fst lost_device_run)) = ["+1001"]
  /\ reported_tallies (snd (fst lost_device_run)) = []
  /\ snd lost_device_run = 1.
Proof. split_and!; vm_compute; reflexivity. Qed.

(** C2, amended.  When [send_sms] raises for a recipient, on any device,
    the pass of the loop reports the failure, runs the return-to-home
    navigation, completes no send and, when that navigation returns, leaves
    the tally as it was and hands over to the rest of the loop, which takes
    up the remaining recipients.  In a run that loads its inputs, connects
    and opens the application: when the loop returns, the process ends with
    exit code 0 whatever sends failed, every recipient was taken up, in
    order, the report counts exactly the sends that went through, out of all
    recipients, and every recipient either has a completed send or is
    reported as failed; the loop is cut short, and the process ends with
    code 1, only by an exception that left a return-to-home navigation; so
    on a device whose return-to-home navigation always returns the loop
    returns. *)
Theorem failed_recipient_does_not_stop_run `{PhoneNumbers} {Dev : Type} `{ViewClient Dev}
    (fs : filesystem) (serialno : option string) (draft delete : bool) (delay : Z)
    (phone_numbers : list string) (message : string) (d d1 d2 : Dev) :
  (forall i n phone_number c (d0 d' : Dev) t' e,
     send_sms phone_number message draft d0 = (d', t', Raise e) ->
     let nav := go_back_to_main_screen d' in
     let step := process_recipient draft delete delay message i n phone_number c d0 in
     trace_of step
     = EPrint (MsgProcessing phone_number) :: t'
       ++ [EPrint (MsgFailedToSend phone_number (str e)); EPrint MsgAttemptingRecover]
       ++ trace_of nav
       ++ match result_of nav with Ok _ => [ESleep 1000] | Raise _ => [] end
     /\ result_of step = match result_of nav with Ok _ => Ok c | Raise e' => Raise e' end
     /\ failed_recipients (trace_of step) = [phone_number]
     /\ sends_completed (trace_of step) = 0%nat
     /\ forall rest,
          (exists b, result_of nav = Ok b) ->
          let next := main_loop draft delete delay message (S i) n rest c (state_of step) in
          main_loop draft delete delay message i n (phone_number :: rest) c d0
          = (state_of next, trace_of step ++ trace_of next, result_of next))
  /\ (get_phone_numbers fs "numbers.txt" = Loaded phone_numbers ->
      get_message fs "content.txt" = Loaded message ->
      vc_connectToDeviceOrExit serialno d = (d1, Fine tt) ->
      vc_shell am_start d1 = (d2, Fine tt) ->
      let run := main fs serialno draft delete delay d in
      let t := snd (fst run) in
      let loop := main_loop draft delete delay message 0 (length phone_numbers)
                            phone_numbers 0 d2 in
      (forall c,
         result_of loop = Ok c ->
         snd run = 0
         /\ processed t = phone_numbers
         /\ reported_tallies t = [(sends_completed t, length phone_numbers)]
         /\ (length phone_numbers
             <= sends_completed t + length (failed_recipients t))%nat)
      /\ (forall e,
            result_of loop = Raise e ->
            snd run = 1
            /\ exists dr, result_of (go_back_to_main_screen dr) = Raise e)
      /\ (recovery_returns Dev ->
          snd run = 0
          /\ processed t = phone_numbers
          /\ reported_tallies t = [(sends_completed t, length phone_numbers)]
          /\ (length phone_numbers
              <= sends_completed t + length (failed_recipients t))%nat)).
Proof.
  split.
  - intros i n phone_number c d0 d' t' e Hsend nav step.
    pose proof (process_recipient_failed draft delete delay message i n phone_number c
                  d0 d' t' e Hsend) as Hstep.
    cbv zeta in Hstep. fold nav in Hstep. fold step in Hstep.
    pose proof (go_back_post d') as [(Hs & _ & _ & Hf) _]. fold nav in Hs, Hf.
    pose proof (send_sms_send draft message phone_number d0) as (_ & _ & Hf0 & Hs0).
    rewrite Hsend in Hf0, Hs0. cbn [trace_of result_of fst snd] in Hf0, Hs0.
    split_and!.
    + by rewrite Hstep.
    + by rewrite Hstep.
    + rewrite Hstep. cbn [trace_of fst snd].
      unfold failed_recipients in *. simpl. rewrite !collect_app. simpl.
      rewrite !collect_app, Hf0, Hf. by destruct (result_of nav).
    + rewrite Hstep. cbn [trace_of fst snd].
      unfold sends_completed in *. simpl.
      rewrite !List.filter_app, !length_app. simpl.
      rewrite !List.filter_app, !length_app, Hs0, Hs. by destruct (result_of nav).
    + intros rest [b Hb] next. simpl.
      assert (Hok : step = (state_of step, trace_of step, Ok c)).
      { rewrite (run_eta step) at 1. f_equal. rewrite Hstep. cbn [result_of snd].
        by rewrite Hb. }
      rewrite (bind_ok _ _ _ _ _ _ Hok). reflexivity.
  - intros Hnum Hmsg Hconn Hopen run t loop.
    assert (Hreturned : forall c,
      result_of loop = Ok c ->
      snd run = 0
      /\ processed t = phone_numbers
      /\ reported_tallies t = [(sends_completed t, length phone_numbers)]
      /\ (length phone_numbers <= sends_completed t + length (failed_recipients t))%nat).
    { intros c Hok.
      assert (Hrun : run
        = (state_of loop,
           [EPrint MsgBanner;
            EPrint (MsgConfiguration (length phone_numbers) message draft delete delay serialno)]
           ++ [EPrint MsgConnecting; EConnect serialno; EPrint MsgConnected; EPrint MsgOpening;
               EShell am_start; ESleep 3000; EPrint MsgLaunched; EPrint MsgStarting]
           ++ trace_of loop
           ++ [EPrint (MsgCompleted (sends_completed (trace_of loop)) (length phone_numbers));
               EPrint (MsgSuccessRate (sends_completed (trace_of loop)) (length phone_numbers))]
           ++ (if decide (sends_completed (trace_of loop) < length phone_numbers)%nat
               then [EPrint (MsgFailedMessages
                               (length phone_numbers - sends_completed (trace_of loop)))]
               else [])
           ++ [EPrint MsgAllDone],
           0)
        /\ processed (trace_of loop) = phone_numbers
        /\ (length phone_numbers
            <= sends_completed (trace_of loop)
               + length (failed_recipients (trace_of loop)))%nat).
      { subst run. unfold main. rewrite Hnum, Hmsg.
        rewrite (run_connected serialno draft delete delay message phone_numbers d d1 d2
                               Hconn Hopen).
        fold loop.
        destruct (main_loop_post draft delete delay message phone_numbers 0
                    (length phone_numbers) 0 d2) as (_ & _ & Hc & _).
        fold loop in Hc.
        destruct (Hc c Hok) as (Hcount & Hproc & Hlen).
        cbv zeta. rewrite Hok.
        rewrite report_run
          by (intros Hlen0; apply length_zero_iff_nil in Hlen0;
              by apply (get_phone_numbers_nonempty fs "numbers.txt" phone_numbers)).
        cbn [state_of trace_of result_of fst snd]. simpl in Hcount. subst c.
        split_and!; done. }
      destruct Hrun as (Hrun & Hproc & Hlen).
      pose proof (main_loop_no_report draft delete delay message phone_numbers 0
                    (length phone_numbers) 0 d2) as Hnorep.
      apply collect_none in Hnorep. fold loop in Hnorep. simpl in Hnorep.
      assert (Ht : t = snd (fst run)) by done. rewrite Hrun in Ht. cbn [fst snd] in Ht.
      split_and!.
      - by rewrite Hrun.
      - rewrite Ht. unfold processed in *. rewrite !collect_app. simpl.
        rewrite Hproc. case_decide; simpl; by rewrite app_nil_r.
      - rewrite Ht. unfold reported_tallies, sends_completed in *.
        rewrite !collect_app, !List.filter_app, !length_app. simpl.
        rewrite Hnorep. case_decide; simpl; repeat f_equal; lia.
      - rewrite Ht. unfold failed_recipients, sends_completed in *.
        rewrite !collect_app, !List.filter_app, !length_app. simpl.
        unfold failed_recipients, sends_completed in Hlen.
        case_decide; simpl; lia. }
    split_and!.
    + exact Hreturned.
    + intros e Hraise. split.
      * subst run. unfold main. rewrite Hnum, Hmsg.
        rewrite (run_connected serialno draft delete delay message phone_numbers d d1 d2
                               Hconn Hopen).
        fold loop. cbv zeta. by rewrite Hraise.
      * by apply (main_loop_raises draft delete delay message phone_numbers 0
                    (length phone_numbers) 0 d2).
    + intros Hrec.
      destruct (main_loop_post draft delete delay message phone_numbers 0
                  (length phone_numbers) 0 d2) as (_ & _ & _ & Hret).
      fold loop in Hret. destruct (Hret Hrec) as [[c Hok] _].
      by apply (Hreturned c).
Qed.

Lemma failed_recipient_does_not_stop_run_witness :
  snd five_recipients_run = 0
  /\ reported_tallies (snd (fst five_recipients_run)) = [(4%nat, 5%nat)].
Proof.
  destruct (@failed_recipient_does_not_stop_run toy_phonenumbers
              nat (simulated (rejects "1003"))
              (files (Some five_numbers) (Some ["hello"])) None false false 5
              ["+1001"; "+1002"; "+1003"; "+1004"; "+1005"] "hello"
              0%nat 1%nat 2%nat)
    as (_ & Hrun).
  destruct Hrun as (Hreturned & _);
    [vm_compute; reflexivity|reflexivity|reflexivity|reflexivity|].
  destruct (Hreturned 4%nat) as (Hexit & _ & Hrep & _); [vm_compute; reflexivity|].
  split; [exact Hexit|].
  unfold five_recipients_run. rewrite Hrep. vm_compute. reflexivity.
Defined.




(** * Further properties *)

(** ** More on the input loader *)

Section LoaderExtras.
Context `{PhoneNumbers}.

Lemma collected_ext (f f' : list string) :
  (forall s, s <> EmptyString -> s ∈ PyStr.strip <$> f <-> s ∈ PyStr.strip <$> f') ->
  foldl add_line ∅ (PyStr.strip <$> f) = foldl add_line ∅ (PyStr.strip <$> f').
Proof.
  intros Hsame. apply leibniz_equiv. intros s. rewrite !elem_of_add_lines.
  split; (intros [Hempty|(line & n & Hin & Hne & Hp & ->)];
          [by apply not_elem_of_empty in Hempty|]);
    right; exists line, n; split_and!; auto; by apply Hsame.
Qed.

Lemma size_add_lines (lines : list string) (acc : gset string) :
  (size (foldl add_line acc lines) <= size acc + length lines)%nat.
Proof.
  revert acc. induction lines as [|l lines IH]; intros acc; simpl; [lia|].
  etrans; [apply IH|]. unfold add_line.
  destruct (decide (l = EmptyString)); [lia|].
  destruct (parse l); [|lia].
  rewrite size_union_alt, size_singleton.
  assert (size (acc ∖ {[format_E164 p]}) <= size acc)%nat.
  { apply subseteq_size. intros x Hx. by apply elem_of_difference in Hx as [? _]. }
  lia.
Qed.

End LoaderExtras.

(** X1.  [get_phone_numbers] depends only on which stripped, non-blank
    lines the file holds: two files with the same such lines, in any order,
    with any repeats, blank lines or padding, give the same outcome. *)
Theorem get_phone_numbers_same_lines `{PhoneNumbers} (fs fs' : filesystem)
    (file_path : string) (f f' : list string) :
  fs file_path = Some f ->
  fs' file_path = Some f' ->
  (forall s, s <> EmptyString -> s ∈ PyStr.strip <$> f <-> s ∈ PyStr.strip <$> f') ->
  get_phone_numbers fs' file_path = get_phone_numbers fs file_path.
Proof.
  intros Hfs Hfs' Hsame. unfold get_phone_numbers. rewrite Hfs, Hfs'.
  by rewrite (collected_ext f f' Hsame).
Qed.

Lemma get_phone_numbers_same_lines_witness :
  @get_phone_numbers toy_phonenumbers (files (Some numbers_shuffled) None) "numbers.txt"
  = @get_phone_numbers toy_phonenumbers (files (Some numbers_example) None) "numbers.txt".
Proof.
  apply (@get_phone_numbers_same_lines toy_phonenumbers _ _ "numbers.txt"
           numbers_example numbers_shuffled); [reflexivity|reflexivity|].
  intros s Hs.
  replace (PyStr.strip <$> numbers_example)
    with ["+4420"; EmptyString; "not a number"; "+1415"; "+4420"] by reflexivity.
  replace (PyStr.strip <$> numbers_shuffled)
    with [EmptyString; "+1415"; "+4420"; "+1415"; EmptyString; "not a number"]
    by reflexivity.
  rewrite !elem_of_cons, !elem_of_nil. tauto.
Defined.

(** X2.  [get_phone_numbers] never returns more numbers than the file has
    lines. *)
Theorem get_phone_numbers_at_most_lines `{PhoneNumbers} (fs : filesystem)
    (file_path : string) (f : list string) (nums : list string) :
  fs file_path = Some f ->
  get_phone_numbers fs file_path = Loaded nums ->
  (length nums <= length f)%nat.
Proof.
  intros Hfs. unfold get_phone_numbers. rewrite Hfs.
  case_decide; [done|]. intros [= <-].
  rewrite (Permutation_length (merge_sort_Permutation _ _)).
  pose proof (size_add_lines (PyStr.strip <$> f) ∅) as Hsize.
  rewrite size_empty, length_fmap in Hsize. exact Hsize.
Qed.

Lemma get_phone_numbers_at_most_lines_witness :
  (length ["+1415"; "+4420"] <= length numbers_example)%nat.
Proof.
  apply (@get_phone_numbers_at_most_lines toy_phonenumbers
           (files (Some numbers_example) None) "numbers.txt");
    [reflexivity|vm_compute; reflexivity].
Defined.

Section StripFacts.

Lemma lstrip_head (s : string) :
  match PyStr.lstrip s with
  | EmptyString => True
  | String c _ => PyStr.isspace c = false
  end.
Proof.
  induction s as [|c s IH]; simpl; [done|].
  destruct (PyStr.isspace c) eqn:Hc; [exact IH|exact Hc].
Qed.

Lemma rstrip_idem (s : string) : PyStr.rstrip (PyStr.rstrip s) = PyStr.rstrip s.
Proof.
  induction s as [|c s IH]; simpl; [done|].
  destruct (PyStr.rstrip s) as [|a r] eqn:Hr.
  - destruct (PyStr.isspace c) eqn:Hc; simpl; [done|]. by rewrite Hc.
  - change (PyStr.rstrip (String c (String a r)))
      with (match PyStr.rstrip (String a r) with
            | EmptyString =>
                if PyStr.isspace c then EmptyString else String c EmptyString
            | r' => String c r'
            end).
    by rewrite IH.
Qed.

Lemma rstrip_head (c : ascii) (s : string) :
  PyStr.isspace c = false -> exists r, PyStr.rstrip (String c s) = String c r.
Proof.
  intros Hc. simpl. destruct (PyStr.rstrip s); [rewrite Hc|]; eauto.
Qed.

Lemma strip_fixed (s : string) :
  PyStr.lstrip (PyStr.strip s) = PyStr.strip s
  /\ PyStr.rstrip (PyStr.strip s) = PyStr.strip s.
Proof.
  unfold PyStr.strip. split; [|apply rstrip_idem].
  pose proof (lstrip_head s) as Hhead.
  destruct (PyStr.lstrip s) as [|c t]; [done|].
  destruct (rstrip_head c t Hhead) as [r ->]. simpl. by rewrite Hhead.
Qed.

Lemma strip_idem (s : string) : PyStr.strip (PyStr.strip s) = PyStr.strip s.
Proof.
  destruct (strip_fixed s) as [Hl Hr]. unfold PyStr.strip at 1. by rewrite Hl, Hr.
Qed.

End StripFacts.

(** X3.  The message [get_message] returns is never empty and carries no
    white space at either end, the line terminator included: stripping it
    again, on the left, on the right or on both sides, changes nothing. *)
Theorem get_message_stripped (fs : filesystem) (file_path message : string) :
  get_message fs file_path = Loaded message ->
  message <> EmptyString
  /\ PyStr.lstrip message = message
  /\ PyStr.rstrip message = message
  /\ PyStr.strip message = message.
Proof.
  unfold get_message. destruct (fs file_path) as [f|]; [|done].
  case_decide as Hne; [done|]. intros [= <-].
  destruct (strip_fixed (readline f)) as [Hl Hr].
  split_and!; [done|done|done|apply strip_idem].
Qed.

Lemma get_message_stripped_witness :
  PyStr.strip "Hello world" = "Hello world".
Proof.
  apply (get_message_stripped
           (files None (Some ["  Hello world " +:+ newline; "ignored"])) "content.txt").
  reflexivity.
Defined.

Section SuffixFacts.

Lemma string_length_app (a b : string) :
  String.length (a +:+ b) = (String.length a + String.length b)%nat.
Proof. induction a as [|c a IH]; simpl; [done|]. by rewrite IH. Qed.

Lemma drop_app (a b : string) : PyStr.drop (String.length a) (a +:+ b) = b.
Proof. induction a as [|c a IH]; simpl; [by destruct b|exact IH]. Qed.

Lemma last_chars_app (n : nat) (a b : string) :
  String.length b = n -> PyStr.last_chars n (a +:+ b) = b.
Proof.
  intros <-. unfold PyStr.last_chars. rewrite string_length_app.
  replace (String.length a + String.length b - String.length b)%nat
    with (String.length a) by lia.
  apply drop_app.
Qed.

Lemma rstrip_newline (s : string) : PyStr.rstrip (s +:+ newline) = PyStr.rstrip s.
Proof. induction s as [|c s IH]; simpl; [done|]. by rewrite IH. Qed.

Lemma strip_newline (s : string) : PyStr.strip (s +:+ newline) = PyStr.strip s.
Proof.
  unfold PyStr.strip. induction s as [|c s IH]; simpl; [done|].
  destruct (PyStr.isspace c); [exact IH|].
  apply (rstrip_newline (String c s)).
Qed.

End SuffixFacts.

(** X4.  Loading is idempotent on its own output.  Suppose that, for
    every stripped line the phone-number library accepts, the E164 form it
    produces is not blank, carries no white space at its ends and parses
    back to a number with the same E164 form.  Then a file that holds the
    numbers [get_phone_numbers] returned, one per line, loads to the same
    list. *)
Theorem get_phone_numbers_round_trip `{PhoneNumbers} (fs fs' : filesystem)
    (file_path : string) (nums : list string) :
  (forall line n,
     PyStr.strip line = line ->
     parse line = Some n ->
     format_E164 n <> EmptyString
     /\ PyStr.strip (format_E164 n) = format_E164 n
     /\ exists n', parse (format_E164 n) = Some n'
                   /\ format_E164 n' = format_E164 n) ->
  get_phone_numbers fs file_path = Loaded nums ->
  fs' file_path = Some ((fun s => s +:+ newline) <$> nums) ->
  get_phone_numbers fs' file_path = Loaded nums.
Proof.
  intros Hlib Hload Hfs'. unfold get_phone_numbers in *. rewrite Hfs'.
  destruct (fs file_path) as [f|]; [|done].
  case_decide as Hne; [done|]. injection Hload as Hnums.
  set (collected := foldl add_line ∅ (PyStr.strip <$> f)) in *.
  assert (Hmem : forall s, s ∈ nums <-> s ∈ collected).
  { intros s. by rewrite <- Hnums, merge_sort_Permutation, elem_of_elements. }
  assert (Hform : forall s, s ∈ collected ->
            PyStr.strip (s +:+ newline) = s /\ s <> EmptyString
            /\ exists n', parse s = Some n' /\ format_E164 n' = s).
  { intros s (l0 & m & _ & _ & Hp & ->)%elem_of_collected.
    destruct (Hlib _ m (strip_idem l0) Hp) as (Hblank & Hstrip & Hparse).
    by rewrite strip_newline, Hstrip. }
  assert (Hsame : foldl add_line ∅ (PyStr.strip <$> ((fun s => s +:+ newline) <$> nums))
                  = collected).
  { apply leibniz_equiv. intros s. rewrite elem_of_collected. split.
    - intros (line & n & Hin & Hblank & Hp & ->).
      apply list_elem_of_fmap in Hin as (num & -> & Hin%Hmem).
      destruct (Hform num Hin) as (Hstrip & _ & n' & Hp' & Hfmt).
      rewrite Hstrip, Hp' in Hp. injection Hp as <-. by rewrite Hfmt.
    - intros Hin. destruct (Hform s Hin) as (Hstrip & Hblank & n' & Hp' & Hfmt).
      exists (s +:+ newline), n'. rewrite Hstrip. split_and!; [|done|done|done].
      apply list_elem_of_fmap. exists s. split; [done|]. by apply Hmem. }
  rewrite Hsame. case_decide; [done|]. by rewrite Hnums.
Qed.

Lemma get_phone_numbers_round_trip_witness :
  @get_phone_numbers toy_phonenumbers
     (files (Some ["+1415" +:+ newline; "+4420" +:+ newline]) None) "numbers.txt"
  = Loaded ["+1415"; "+4420"].
Proof.
  apply (@get_phone_numbers_round_trip toy_phonenumbers
           (files (Some numbers_example) None) _ "numbers.txt" ["+1415"; "+4420"]).
  - intros line n Hstrip Hp. simpl in *.
    destruct line as [|a [|b r]]; [done| |].
    + by destruct a as [[] [] [] [] [] [] [] []].
    + destruct a as [[] [] [] [] [] [] [] []]; try done.
      injection Hp as <-. split_and!; [done|done|]. by eexists.
  - vm_compute. reflexivity.
  - reflexivity.
Defined.

(** ** More on [send_sms] *)

(** X5.  The suggestion test of [send_sms] compares only the last ten
    characters of the recipient (numbers are ASCII, one byte to a
    character): two numbers that end in the same ten characters match
    exactly the same suggestions, whatever precedes those characters. *)
Theorem suggestion_matches_last_ten (prefix prefix' tail : string) (suggestion : View) :
  String.length tail = 10%nat ->
  PyStr.last_chars 10 (prefix +:+ tail) = tail
  /\ suggestion_matches (prefix +:+ tail) suggestion
     = suggestion_matches (prefix' +:+ tail) suggestion.
Proof.
  intros Hlen. split; [by apply last_chars_app|].
  unfold suggestion_matches. by rewrite !last_chars_app.
Qed.

Lemma suggestion_matches_last_ten_witness :
  suggestion_matches "+14155552671"
    {| view_id := "row"; getText := Some "(415) 555-2671"; getXY := (0, 0) |}
  = suggestion_matches "+4914155552671"
      {| view_id := "row"; getText := Some "(415) 555-2671"; getXY := (0, 0) |}.
Proof.
  apply (suggestion_matches_last_ten "+1" "+491" "4155552671"). reflexivity.
Defined.

Lemma slept_app (t1 t2 : list Event) : slept (t1 ++ t2) = slept t1 + slept t2.
Proof.
  induction t1 as [|ev t1 IH]; simpl; [done|].
  destruct ev; rewrite ?IH; lia.
Qed.

(** As [emits_step], for properties of events that are propositions. *)
Ltac allowed := simpl; auto 10.

Ltac emits_allowed_step :=
  lazymatch goal with
  | |- emits _ (bind _ _) => apply emits_bind; [|intros ?]
  | |- emits _ (ret _) => apply emits_ret
  | |- emits _ (raise _) => apply emits_raise
  | |- emits _ (print _) => apply emits_print; allowed
  | |- emits _ (sleep _) => apply emits_sleep; allowed
  | |- emits _ (call _ _) => apply emits_call; allowed
  | |- emits _ (try_catch _ _) => apply emits_try_catch; [|intros ?]
  | |- emits _ (match ?x with _ => _ end) => destruct x
  | |- emits _ (if ?b then _ else _) => destruct b
  end; cbn [negb repeat_times].

Ltac emits_allowed :=
  repeat (emits_allowed_step;
          unfold dump, findViewById, findViewsContainingText,
            findViewsWithContentDescriptionRe, findViewsWithAttribute,
            touch, shell, drag, connectToDeviceOrExit).

Section SendFacts.
Context {Dev : Type} `{ViewClient Dev}.
Variables (phone_number message : string).


Lemma attempt_step_compose (draft : bool) (attempt : nat) :
  emits (compose_event phone_number message)
        (attempt_step phone_number message draft attempt).
Proof. unfold attempt_step, attempt_body, attempt_except. emits_allowed. Qed.

Lemma attempt_step_slept (draft : bool) (attempt : nat) :
  post (attempt_step phone_number message draft attempt)
       (fun t r => 0 <= slept t <= attempt_sleep_bound attempt
                   /\ match r with
                      | Ok ReturnTrue => attempt_sleep_floor draft <= slept t
                      | _ => True
                      end).
Proof.
  unfold attempt_step, attempt_body, attempt_except, attempt_sleep_bound,
    attempt_sleep_floor.
  destruct draft; post_steps; simpl; repeat case_decide; lia.
Qed.

Lemma send_sms_slept (draft : bool) :
  post (send_sms phone_number message draft)
       (fun t r => 0 <= slept t <= 69500
                   /\ match r with
                      | Ok _ => attempt_sleep_floor draft <= slept t
                      | Raise _ => True
                      end).
Proof.
  assert (Hfloor : 0 <= attempt_sleep_floor draft) by (by destruct draft).
  unfold send_sms. simpl.
  eapply post_bind_with; [apply (attempt_step_slept draft 0)|..]; simpl.
  2:{ intros t1 e (Hb1 & _). change (attempt_sleep_bound 0) with 24500 in Hb1.
      split; [lia|done]. }
  intros t1 c1 (Hb1 & Hf1). change (attempt_sleep_bound 0) with 24500 in Hb1.
  destruct c1.
  2:{ apply post_ret. rewrite app_nil_r. split; [lia|done]. }
  eapply post_bind_with; [apply (attempt_step_slept draft 1)|..]; simpl.
  2:{ intros t2 e (Hb2 & _). change (attempt_sleep_bound 1) with 24500 in Hb2.
      rewrite slept_app. split; [lia|done]. }
  intros t2 c2 (Hb2 & Hf2). change (attempt_sleep_bound 1) with 24500 in Hb2.
  destruct c2.
  2:{ apply post_ret. rewrite app_nil_r, slept_app. split; lia. }
  eapply post_bind_with; [apply (attempt_step_slept draft 2)|..]; simpl.
  2:{ intros t3 e (Hb3 & _). change (attempt_sleep_bound 2) with 20500 in Hb3.
      rewrite !slept_app. split; [lia|done]. }
  intros t3 c3 (Hb3 & Hf3). change (attempt_sleep_bound 2) with 20500 in Hb3.
  destruct c3.
  - apply post_raise. rewrite app_nil_r, !slept_app. split; [lia|done].
  - apply post_ret. rewrite app_nil_r, !slept_app. split; lia.
Qed.

End SendFacts.


(** X7.  The time a call of [send_sms] spends in [time.sleep] is bounded:
    at most 69.5 seconds over its three attempts, and at least 14.5 seconds
    in draft mode and 17.5 seconds in send mode when the call returns. *)
Theorem send_sms_sleep_bounds {Dev : Type} `{ViewClient Dev}
    (phone_number message : string) (draft : bool) (d : Dev) :
  let run := send_sms phone_number message draft d in
  0 <= slept (trace_of run) <= 69500
  /\ match result_of run with
     | Ok _ => (if draft then 14500 else 17500) <= slept (trace_of run)
     | Raise _ => True
     end.
Proof. apply (send_sms_slept phone_number message draft d). Qed.

(** X8.  All a call of [send_sms] does to the device is take snapshots,
    tap views, look up the four views of the compose flow, and send the
    CTRL+A, ENTER and BACK key events and the two texts, the recipient
    without its plus signs and the message: no other shell command, no drag,
    no lookup by content description and no new connection. *)
Theorem send_sms_compose_events_only {Dev : Type} `{ViewClient Dev}
    (phone_number message : string) (draft : bool) (d : Dev) :
  Forall (compose_event phone_number message)
         (trace_of (send_sms phone_number message draft d)).
Proof.
  apply (send_sms_loop_emits phone_number message _ draft (seq 0 max_retries)).
  intros attempt. apply attempt_step_compose.
Qed.

(** ** More on the navigation and on the deletion *)

Section NavigatorExtras.
Context {Dev : Type} `{ViewClient Dev}.

Lemma go_back_navigation_events :
  emits navigation_event go_back_to_main_screen.
Proof.
  unfold go_back_to_main_screen, go_back_body, back_twice, press_back,
    verify_main_screen, go_back_fallback.
  emits_allowed.
Qed.

Lemma go_back_counts :
  post go_back_to_main_screen
       (fun t r => (navigations t <= 4)%nat
                   /\ 0 <= slept t <= 8000
                   /\ match r with
                      | Ok true => navigations t = 2%nat /\ slept t = 4000
                      | Ok false => (2 <= navigations t)%nat /\ 4000 <= slept t
                      | Raise _ => (1 <= back_keys t)%nat
                      end).
Proof.
  unfold go_back_to_main_screen, go_back_body, back_twice, press_back,
    verify_main_screen, go_back_fallback.
  post_steps; vm_compute; split_and?; done || lia.
Qed.

Lemma delete_last_sms_cleanup_events :
  emits cleanup_event delete_last_sms.
Proof. unfold delete_last_sms. emits_allowed. Qed.

Lemma delete_last_sms_counts :
  post delete_last_sms
       (fun t _ => (drags t <= 1)%nat /\ (touches t <= 2)%nat
                   /\ back_keys t = 0%nat /\ 0 <= slept t <= 5000).
Proof.
  unfold delete_last_sms.
  post_steps; vm_compute; split_and?; done || lia.
Qed.


End NavigatorExtras.

(** X9.  [go_back_to_main_screen] only takes snapshots, taps views, looks
    for "Back" views and for the Start Chat landmark, and sends the raw
    back key: no other shell command and no drag.  It makes at most four
    back navigations and sleeps at most eight seconds; when it returns
    [True] it has made exactly two navigations and slept four seconds, when
    it returns [False] at least two navigations and four seconds, and when
    it raises it has sent at least one raw back key. *)
Theorem go_back_to_main_screen_bounded {Dev : Type} `{ViewClient Dev} (d : Dev) :
  let run := go_back_to_main_screen d in
  Forall navigation_event (trace_of run)
  /\ (navigations (trace_of run) <= 4)%nat
  /\ 0 <= slept (trace_of run) <= 8000
  /\ match result_of run with
     | Ok true => navigations (trace_of run) = 2%nat /\ slept (trace_of run) = 4000
     | Ok false => (2 <= navigations (trace_of run))%nat /\ 4000 <= slept (trace_of run)
     | Raise _ => (1 <= back_keys (trace_of run))%nat
     end.
Proof.
  intros run. split; [apply (go_back_navigation_events d)|].
  apply (go_back_counts d).
Qed.

(** X10.  [delete_last_sms] only takes snapshots, looks up the conversation
    row, the delete button and the confirmation button, taps, and drags
    from a point to the same point for one second in one step (a long
    press): it sends no shell command, so no key event and no text.  It
    makes at most one long press and two taps, and sleeps at most five
    seconds. *)
Theorem delete_last_sms_cleanup_only {Dev : Type} `{ViewClient Dev} (d : Dev) :
  let t := trace_of (delete_last_sms d) in
  Forall cleanup_event t
  /\ (drags t <= 1)%nat /\ (touches t <= 2)%nat
  /\ back_keys t = 0%nat /\ 0 <= slept t <= 5000.
Proof.
  intros t. split; [apply (delete_last_sms_cleanup_events d)|].
  apply (delete_last_sms_counts d).
Qed.



(** ** More on the loop and on the whole run *)

Section LoopExtras.
Context {Dev : Type} `{ViewClient Dev}.
Variables (draft delete : bool) (delay : Z) (message : string).

(** A pass of the loop reports its recipient as failed at most once, and
    does so whenever it raises. *)
Lemma process_recipient_reports (i n : nat) (phone_number : string) (c : nat) :
  post (process_recipient draft delete delay message i n phone_number c)
       (fun t r => processed t = [phone_number]
                   /\ (sends_completed t <= 1)%nat
                   /\ match r with
                      | Ok _ => failed_recipients t = []
                                \/ failed_recipients t = [phone_number]
                      | Raise _ => failed_recipients t = [phone_number]
                      end).
Proof.
  unfold process_recipient. do 2 post_step.
  eapply post_bind_with; [apply try_send_post|..]; simpl.
  2:{ intros t1 e (Hd & Hp & Hs & Hf & Hnot). tallied. }
  intros t1 [|] (Hd & Hp & Hs & Hf).
  2:{ apply post_ret. tallied. auto. }
  eapply post_bind_with
    with (Qm := fun t r =>
                  sends_completed t = 0%nat /\ processed t = []
                  /\ match r with
                     | Ok _ => failed_recipients t = []
                               \/ failed_recipients t = [phone_number]
                     | Raise _ => failed_recipients t = [phone_number]
                     end).
  - eapply post_try_catch_with; [apply after_send_post|..]; simpl.
    + intros t2 [] (Hs2 & Hp2 & Hf2 & _). auto.
    + intros t2 e (Hs2 & Hp2 & Hf2 & _).
      eapply post_mono; [apply recover_post|]. simpl.
      intros t3 r (Hs3 & Hd3 & Hp3 & Hf3 & _).
      rewrite sends_completed_app, processed_app, failed_recipients_app,
        Hs2, Hp2, Hf2, Hs3, Hp3, Hf3.
      split_and!; [done|done|]. destruct r; auto.
  - intros t2 [] (Hs2 & Hp2 & [Hf2|Hf2]); apply post_ret; tallied; auto.
  - intros t2 e (Hs2 & Hp2 & Hf2). tallied.
Qed.

Lemma main_loop_order (phone_numbers : list string) (i n c : nat) :
  post (main_loop draft delete delay message i n phone_numbers c)
       (fun t r => processed t `prefix_of` phone_numbers
                   /\ failed_recipients t `sublist_of` processed t
                   /\ (sends_completed t <= length (processed t))%nat
                   /\ match r with
                      | Ok _ => processed t = phone_numbers
                      | Raise _ =>
                          exists p, last (processed t) = Some p
                                    /\ last (failed_recipients t) = Some p
                      end).
Proof.
  revert i c. induction phone_numbers as [|p rest IH]; intros i c; simpl.
  - apply post_ret. split_and!; [done|done|unfold sends_completed; simpl; lia|done].
  - eapply post_bind_with; [apply process_recipient_reports|..]; simpl.
    + intros t1 c1 (Hp & Hs & Hf).
      eapply post_mono; [apply IH|].
      intros t2 r (Hpre & Hsub & Hle & Hres).
      rewrite processed_app, failed_recipients_app, sends_completed_app, Hp.
      split_and!.
      * by apply prefix_cons.
      * destruct Hf as [->| ->]; simpl; [by apply sublist_cons|by apply sublist_skip].
      * simpl. lia.
      * destruct r as [c2|e]; [by rewrite Hres|].
        destruct Hres as (q & Hq & Hfq). exists q.
        destruct (processed t2) as [|a l] eqn:Hpr; [done|].
        destruct (failed_recipients t2) as [|b l'] eqn:Hfr; [done|].
        split; [done|]. by rewrite last_app, Hfq.
    + intros t1 e (Hp & Hs & Hf). rewrite Hp, Hf.
      split_and!; [by apply prefix_cons, prefix_nil|done|simpl; lia|by exists p].
Qed.

End LoopExtras.

Section RunExtras.
Context {Dev : Type} `{ViewClient Dev}.
Variables (serialno : option string) (draft delete : bool) (delay : Z) (message : string).

Lemma run_report (phone_numbers : list string) :
  phone_numbers <> [] ->
  post (run serialno draft delete delay message phone_numbers)
       (fun t r => match r with
                   | Ok c =>
                       c = sends_completed t
                       /\ reported_tallies t = [(sends_completed t, length phone_numbers)]
                       /\ last t = Some (EPrint MsgAllDone)
                   | Raise e => reported_tallies t = []
                   end).
Proof.
  intros Hne. unfold run, open_messages.
  post_steps.
  all: try (simpl; done).
  eapply post_mono;
    [apply post_and;
     [apply (main_loop_post draft delete delay message)
     |apply (main_loop_no_report draft delete delay message)]|].
  intros t1 [c|e] [(_ & _ & Hc & _) Hnorep]; apply collect_none in Hnorep.
  - destruct (Hc c eq_refl) as (Hcount & _). simpl in Hcount.
    intros d'. unfold bind.
    rewrite report_run by (by intros ?%length_zero_iff_nil).
    cbn [ret trace_of result_of fst snd].
    unfold reported_tallies, sends_completed in *. simpl.
    rewrite !collect_app, !List.filter_app, !length_app, Hnorep. simpl.
    split_and!.
    + case_decide; simpl; lia.
    + case_decide; simpl; repeat f_equal; lia.
    + rewrite app_nil_r, last_cons, last_app, !last_cons, last_app. done.
  - unfold reported_tallies. simpl. exact Hnorep.
Qed.

End RunExtras.

Lemma waits_app (t1 t2 : list Event) : waits (t1 ++ t2) = (waits t1 + waits t2)%nat.
Proof. unfold waits. by rewrite List.filter_app, length_app. Qed.

Lemma launches_app (t1 t2 : list Event) :
  launches (t1 ++ t2) = (launches t1 + launches t2)%nat.
Proof. unfold launches. by rewrite List.filter_app, length_app. Qed.

Lemma connections_app (t1 t2 : list Event) :
  connections (t1 ++ t2) = (connections t1 + connections t2)%nat.
Proof. unfold connections. by rewrite List.filter_app, length_app. Qed.

Lemma filter_none (f : Event -> bool) (t : list Event) :
  Forall (fun ev => f ev = false) t -> length (List.filter f t) = 0%nat.
Proof. induction 1 as [|ev t Hev _ IH]; simpl; [done|]. by rewrite Hev. Qed.

Section LoopEmits.
Context {Dev : Type} `{ViewClient Dev}.
Variables (draft delete : bool) (delay : Z) (message : string).
Variable P : Event -> Prop.
Hypothesis P_print : forall m, P (EPrint m).
Hypothesis P_sleep : forall ms, P (ESleep ms).
Hypothesis P_go_back : emits P go_back_to_main_screen.
Hypothesis P_delete : emits P delete_last_sms.

Lemma recover_emits (phone_number : string) (e : exn) :
  emits P (recover phone_number e).
Proof.
  unfold recover.
  repeat first [apply emits_bind; [|intros ?]|apply emits_print|apply emits_sleep]; auto.
Qed.

Lemma after_send_emits (i n : nat) : emits P (after_send delete delay i n).
Proof.
  unfold after_send.
  apply emits_bind; [by apply emits_print|intros _].
  apply emits_bind; [done|intros _].
  apply emits_bind.
  - destruct delete; [|apply emits_ret].
    apply emits_bind; [by apply emits_print|done].
  - intros _. case_decide; [|apply emits_ret].
    apply emits_bind; [by apply emits_print|intros _; by apply emits_sleep].
Qed.

Lemma process_recipient_emits (i n : nat) (phone_number : string) (c : nat) :
  emits P (send_sms phone_number message draft) ->
  emits P (process_recipient draft delete delay message i n phone_number c).
Proof.
  intros Hsend. unfold process_recipient.
  apply emits_bind; [by apply emits_print|intros _].
  apply emits_bind.
  - apply emits_try_catch.
    + apply emits_bind; [done|intros ?; apply emits_ret].
    + intros e. apply emits_bind; [apply recover_emits|intros ?; apply emits_ret].
  - intros [|]; [|apply emits_ret].
    apply emits_bind; [|intros ?; apply emits_ret].
    apply emits_try_catch; [apply after_send_emits|apply recover_emits].
Qed.

Lemma main_loop_emits (phone_numbers : list string) (i n c : nat) :
  (forall phone_number, phone_number ∈ phone_numbers ->
     emits P (send_sms phone_number message draft)) ->
  emits P (main_loop draft delete delay message i n phone_numbers c).
Proof.
  revert i c. induction phone_numbers as [|p rest IH]; intros i c Hsend; simpl.
  - apply emits_ret.
  - apply emits_bind.
    + apply process_recipient_emits, Hsend. left.
    + intros c'. apply IH. intros q Hq. apply Hsend. by right.
Qed.

End LoopEmits.

Lemma emits_mono {Dev A} (P P' : Event -> Prop) (m : M Dev A) :
  (forall ev, P ev -> P' ev) -> emits P m -> emits P' m.
Proof.
  intros HP Hm. eapply post_mono; [exact Hm|]. intros t r Ht. simpl in *. exact (Forall_impl _ _ _ Ht HP).
Qed.

Section DelayFacts.
Context {Dev : Type} `{ViewClient Dev}.
Variables (draft delete : bool) (delay : Z) (message : string).

Lemma post_any {A} (m : M Dev A) : post m (fun _ _ => True).
Proof. by intros d. Qed.

Lemma post_sleep_negative (ms : Z) (Q : list Event -> outcome unit -> Prop) :
  ms < 0 ->
  (forall msg, Q [] (Raise (ValueError msg))) ->
  post (sleep (Dev := Dev) ms) Q.
Proof. intros Hms HQ d. unfold sleep. case_decide; [apply HQ|lia]. Qed.

Lemma send_sms_no_wait (phone_number : string) :
  emits (fun ev => is_waiting ev = false) (send_sms phone_number message draft).
Proof.
  apply send_sms_loop_emits. intros attempt.
  unfold attempt_step, attempt_body, attempt_except. emits_steps.
Qed.

Lemma go_back_no_wait :
  emits (fun ev => is_waiting ev = false) go_back_to_main_screen.
Proof.
  unfold go_back_to_main_screen, go_back_body, back_twice, press_back,
    verify_main_screen, go_back_fallback.
  emits_steps.
Qed.

Lemma delete_last_sms_no_wait :
  emits (fun ev => is_waiting ev = false) delete_last_sms.
Proof. unfold delete_last_sms. emits_steps. Qed.

Lemma recover_no_wait (phone_number : string) (e : exn) :
  post (recover phone_number e) (fun t _ => waits t = 0%nat).
Proof.
  unfold recover. do 4 post_step.
  eapply post_bind_with; [apply go_back_no_wait|..]; simpl.
  - intros t1 b Ht1. apply post_sleep; [lia|].
    apply filter_none in Ht1. unfold waits in *. simpl.
    rewrite List.filter_app, length_app, Ht1. done.
  - intros t1 e' Ht1. apply filter_none in Ht1. unfold waits in *. simpl. done.
Qed.

(** The delay: at most one for a recipient, none for the last one. *)
Lemma after_send_waits (i n : nat) :
  post (after_send delete delay i n)
       (fun t _ => (waits t <= 1)%nat /\ ((n <= S i)%nat -> waits t = 0%nat)).
Proof.
  unfold after_send. do 2 post_step.
  eapply post_bind_with; [apply go_back_no_wait|..]; simpl.
  2:{ intros t1 e Ht1%filter_none. unfold waits in *. simpl. rewrite Ht1. auto with lia. }
  intros t1 b Ht1%filter_none.
  eapply post_bind_with with (Qm := fun t _ => waits t = 0%nat).
  - destruct delete.
    + do 2 post_step. eapply post_mono; [apply delete_last_sms_no_wait|].
      intros t2 r Ht2%filter_none. exact Ht2.
    + by post_step.
  - intros t2 [] Ht2. unfold waits in *. case_decide.
    + do 2 post_step. apply post_sleep_any; [|intros msg]; simpl;
        rewrite !List.filter_app, !length_app, Ht1, Ht2; simpl; split; lia.
    + post_step. simpl. rewrite !List.filter_app, !length_app, Ht1, Ht2. simpl. auto with lia.
  - intros t2 e Ht2. unfold waits in *. simpl.
    rewrite !List.filter_app, !length_app, Ht1, Ht2. auto with lia.
Qed.

Lemma process_recipient_waits (i n : nat) (phone_number : string) (c : nat) :
  post (process_recipient draft delete delay message i n phone_number c)
       (fun t _ => (waits t <= 1)%nat /\ ((n <= S i)%nat -> waits t = 0%nat)).
Proof.
  unfold process_recipient. do 2 post_step.
  eapply post_bind_with with (Qm := fun t _ => waits t = 0%nat).
  - eapply post_try_catch_with with (Qm := fun t _ => waits t = 0%nat).
    + eapply post_bind_with; [apply send_sms_no_wait|..]; simpl.
      * intros t1 b Ht1%filter_none. post_step. by rewrite app_nil_r.
      * by intros t1 e Ht1%filter_none.
    + auto.
    + intros t1 e Ht1.
      eapply post_bind_with; [apply recover_no_wait|..]; simpl.
      * intros t2 [] Ht2. post_step. by rewrite app_nil_r, waits_app, Ht1, Ht2.
      * intros t2 e' Ht2. by rewrite waits_app, Ht1, Ht2.
  - intros t1 [|] Ht1.
    + eapply post_bind_with
        with (Qm := fun t _ => (waits t <= 1)%nat /\ ((n <= S i)%nat -> waits t = 0%nat)).
      * eapply post_try_catch_with; [apply after_send_waits|..]; simpl.
        -- auto.
        -- intros t2 e [Hle Hlast].
           eapply post_mono; [apply recover_no_wait|]. simpl.
           intros t3 r Ht3. rewrite waits_app, Ht3. split; [lia|].
           intros Hn. rewrite Hlast; auto.
      * intros t2 [] [Hle Hlast]. post_step.
        rewrite app_nil_r. change (waits (?a ++ ?b)) with (waits (a ++ b)).
        rewrite app_assoc, waits_app, waits_app, Ht1. simpl. split; [lia|].
        intros Hn. rewrite Hlast; auto.
      * intros t2 e [Hle Hlast].
        rewrite app_assoc, waits_app, waits_app, Ht1. simpl. split; [lia|].
        intros Hn. rewrite Hlast; auto.
    + post_step. rewrite app_nil_r, waits_app, Ht1. simpl. auto with lia.
  - intros t1 e Ht1. rewrite waits_app, Ht1. simpl. auto with lia.
Qed.

Lemma main_loop_waits (phone_numbers : list string) (i n c : nat) :
  post (main_loop draft delete delay message i n phone_numbers c)
       (fun t _ => (waits t <= n - 1 - i)%nat /\ (waits t <= length phone_numbers)%nat).
Proof.
  revert i c. induction phone_numbers as [|p rest IH]; intros i c; simpl.
  - post_step. unfold waits. simpl. lia.
  - eapply post_bind_with; [apply process_recipient_waits|..]; simpl.
    + intros t1 c1 [Hle Hlast].
      eapply post_mono; [apply IH|]. simpl.
      intros t2 r [Hrest Hlen]. rewrite waits_app.
      destruct (decide (n <= S i)%nat) as [Hn|Hn]; [rewrite (Hlast Hn)|]; lia.
    + intros t1 e [Hle Hlast].
      destruct (decide (n <= S i)%nat) as [Hn|Hn]; [rewrite (Hlast Hn)|]; lia.
Qed.

(** With a negative delay, what follows a send raises for every recipient
    but the last. *)
Lemma after_send_negative (i n : nat) :
  delay < 0 -> (S i < n)%nat ->
  post (after_send delete delay i n) (fun _ r => exists e, r = Raise e).
Proof.
  intros Hdelay Hi. unfold after_send. do 2 post_step.
  eapply post_bind_with; [apply post_any|..]; simpl; [|eauto].
  intros t1 b _.
  eapply post_bind_with with (Qm := fun _ _ => True); [apply post_any|..]; [|eauto].
  intros t2 [] _. case_decide; [|lia].
  do 2 post_step. apply post_sleep_negative; [lia|eauto].
Qed.

Lemma process_recipient_negative (i n : nat) (phone_number : string) (c : nat) :
  delay < 0 -> (S i < n)%nat ->
  post (process_recipient draft delete delay message i n phone_number c)
       (fun t r => failed_recipients t = [phone_number]).
Proof.
  intros Hdelay Hi. unfold process_recipient. do 2 post_step.
  eapply post_bind_with; [apply try_send_post|..]; simpl.
  2:{ intros t1 e (Hd & Hp & Hs & Hf & Hnot). tallied. }
  intros t1 [|] (Hd & Hp & Hs & Hf).
  2:{ post_step. tallied. }
  eapply post_bind_with with (Qm := fun t _ => failed_recipients t = [phone_number]).
  - eapply post_try_catch_with;
      [apply post_and; [apply after_send_post|apply (after_send_negative i n Hdelay Hi)]|..];
      simpl.
    + intros t2 [] [_ [e [=]]].
    + intros t2 e [(_ & _ & Hf2 & _) _].
      eapply post_mono; [apply recover_post|]. simpl.
      intros t3 r (_ & _ & _ & Hf3 & _).
      by rewrite failed_recipients_app, Hf2, Hf3.
  - intros t2 [] Hf2. post_step. tallied.
  - intros t2 e Hf2. tallied.
Qed.

End DelayFacts.

Section WholeRun.
Context {Dev : Type} `{ViewClient Dev}.
Variables (serialno : option string) (draft delete : bool) (delay : Z) (message : string).

Lemma report_emits (P : Event -> Prop) (success_count total : nat) :
  (forall m, P (EPrint m)) -> emits (Dev := Dev) P (report success_count total).
Proof.
  intros HP. unfold report.
  repeat first [apply emits_bind; [|intros ?]|apply emits_print; apply HP
               |case_decide|apply emits_raise|apply emits_ret].
Qed.

(** The run from the loop on. *)
Lemma run_loop_emits (P : Event -> Prop) (phone_numbers : list string) :
  (forall m, P (EPrint m)) ->
  (forall ms, P (ESleep ms)) ->
  emits P go_back_to_main_screen ->
  emits P delete_last_sms ->
  (forall phone_number, phone_number ∈ phone_numbers ->
     emits P (send_sms phone_number message draft)) ->
  emits P (success_count <- main_loop draft delete delay message 0 (length phone_numbers)
                                      phone_numbers 0%nat;;
           report success_count (length phone_numbers);;
           ret success_count).
Proof.
  intros Hprint Hsleep Hback Hdelete Hsend.
  apply emits_bind; [by apply main_loop_emits|intros c].
  apply emits_bind; [by apply report_emits|intros ?; apply emits_ret].
Qed.

Lemma run_emits (P : Event -> Prop) (phone_numbers : list string) :
  (forall m, P (EPrint m)) ->
  (forall ms, P (ESleep ms)) ->
  P (EConnect serialno) ->
  P (EShell am_start) ->
  emits P go_back_to_main_screen ->
  emits P delete_last_sms ->
  (forall phone_number, phone_number ∈ phone_numbers ->
     emits P (send_sms phone_number message draft)) ->
  emits P (run serialno draft delete delay message phone_numbers).
Proof.
  intros Hprint Hsleep Hconn Hlaunch Hback Hdelete Hsend.
  unfold run, open_messages, connectToDeviceOrExit, shell.
  repeat first [apply run_loop_emits; assumption
               |apply emits_bind; [|intros ?]
               |apply emits_print; apply Hprint
               |apply emits_sleep; apply Hsleep
               |apply emits_call; assumption].
Qed.

Lemma send_sms_no_start (phone_number : string) :
  emits (fun ev => is_start ev = false) (send_sms phone_number message draft).
Proof.
  apply send_sms_loop_emits. intros attempt.
  unfold attempt_step, attempt_body, attempt_except. emits_steps.
Qed.

Lemma go_back_no_start :
  emits (fun ev => is_start ev = false) go_back_to_main_screen.
Proof.
  unfold go_back_to_main_screen, go_back_body, back_twice, press_back,
    verify_main_screen, go_back_fallback.
  emits_steps.
Qed.

Lemma delete_last_sms_no_start :
  emits (fun ev => is_start ev = false) delete_last_sms.
Proof. unfold delete_last_sms. emits_steps. Qed.

Lemma starts_none (t : list Event) :
  Forall (fun ev => is_start ev = false) t ->
  connections t = 0%nat /\ launches t = 0%nat.
Proof.
  unfold connections, launches, is_start.
  induction 1 as [|ev t Hev _ [IH1 IH2]]; simpl; [done|].
  apply orb_false_iff in Hev as [-> ->]. done.
Qed.

Lemma run_starts (phone_numbers : list string) :
  post (run serialno draft delete delay message phone_numbers)
       (fun t _ => (connections t <= 1)%nat /\ (launches t <= 1)%nat
                   /\ match processed t with
                      | [] => True
                      | _ :: _ => connections t = 1%nat /\ launches t = 1%nat
                      end).
Proof.
  unfold run, open_messages.
  repeat (lazymatch goal with
          | |- post (bind (main_loop _ _ _ _ _ _ _ _) _) _ => fail
          | _ => post_step
          end;
          unfold shell, connectToDeviceOrExit).
  all: try (vm_compute; split_and!; done || lia).
  eapply post_mono.
  { apply (run_loop_emits (fun ev => is_start ev = false)); try done.
    - apply go_back_no_start.
    - apply delete_last_sms_no_start.
    - intros p _. apply send_sms_no_start. }
  intros t r [Hc Hl]%starts_none. simpl.
  unfold connections, launches in *. simpl. rewrite Hc, Hl.
  split_and!; [lia|lia|]. by destruct (processed _).
Qed.

End WholeRun.

(** X12.  The loop of [main] takes the recipients up in the order of the
    list, skipping none: at any point the recipients processed so far are a
    prefix of the list, and the whole list when the loop returns.  Each
    pass reports its recipient as failed at most once, no more sends are
    completed than recipients were taken up, and a loop that is cut short by
    an exception stops at a recipient it has just reported as failed. *)
Theorem recipients_in_order {Dev : Type} `{ViewClient Dev}
    (draft delete : bool) (delay : Z) (message : string)
    (phone_numbers : list string) (i n c : nat) (d : Dev) :
  let run := main_loop draft delete delay message i n phone_numbers c d in
  processed (trace_of run) `prefix_of` phone_numbers
  /\ failed_recipients (trace_of run) `sublist_of` processed (trace_of run)
  /\ (sends_completed (trace_of run) <= length (processed (trace_of run)))%nat
  /\ match result_of run with
     | Ok _ => processed (trace_of run) = phone_numbers
     | Raise _ =>
         exists phone_number,
           last (processed (trace_of run)) = Some phone_number
           /\ last (failed_recipients (trace_of run)) = Some phone_number
     end.
Proof. apply (main_loop_order draft delete delay message phone_numbers i n c d). Qed.

(** X13.  Once both inputs are loaded, the process ends in one of two
    ways.  With exit code 0: the last thing printed is the closing banner,
    and the report, printed once, gives the number of sends that completed
    out of the number of recipients, which is at least one.  With exit code
    1: the last thing printed is the critical-error banner and no report was
    printed. *)
Theorem exit_code_and_report `{PhoneNumbers} {Dev : Type} `{ViewClient Dev}
    (fs : filesystem) (serialno : option string) (draft delete : bool) (delay : Z)
    (phone_numbers : list string) (message : string) (d : Dev) :
  get_phone_numbers fs "numbers.txt" = Loaded phone_numbers ->
  get_message fs "content.txt" = Loaded message ->
  let run := main fs serialno draft delete delay d in
  let t := snd (fst run) in
  (snd run = 0
   /\ last t = Some (EPrint MsgAllDone)
   /\ reported_tallies t = [(sends_completed t, length phone_numbers)]
   /\ (1 <= length phone_numbers)%nat)
  \/ (snd run = 1
      /\ (exists e, last t = Some (EPrint (MsgCritical e)))
      /\ reported_tallies t = []).
Proof.
  intros Hnum Hmsg run t.
  assert (Hne : phone_numbers <> [])
    by apply (get_phone_numbers_nonempty fs "numbers.txt" phone_numbers Hnum).
  pose proof (run_report serialno draft delete delay message phone_numbers Hne d) as Hrun.
  subst t run. unfold main. rewrite Hnum, Hmsg.
  unfold trace_of, result_of in Hrun.
  destruct (run serialno draft delete delay message phone_numbers d) as [[d' t] [c|e]];
    cbn [fst snd] in *.
  - left. destruct Hrun as (Hc & Hrep & Hlast).
    unfold reported_tallies, sends_completed in *. cbv zeta. simpl.
    split_and!; [done| |done|].
    + destruct t; [done|exact Hlast].
    + destruct phone_numbers; [done|simpl; lia].
  - right. unfold reported_tallies in *. cbv zeta. split_and!; [done| |].
    + exists (str e). rewrite app_assoc. apply last_snoc.
    + rewrite !collect_app. simpl. by rewrite Hrun.
Qed.

Lemma exit_code_and_report_witness :
  snd negative_delay_run = 0
  /\ reported_tallies (snd (fst negative_delay_run)) = [(2%nat, 2%nat)].
Proof.
  destruct (@exit_code_and_report toy_phonenumbers nat (simulated working)
              (files (Some ["+1001"; "+1002"]) (Some ["hello"])) None false false (-1)
              ["+1001"; "+1002"] "hello" 0%nat)
    as [(Hexit & _ & Hrep & _)|(Hexit & _)]; [reflexivity|reflexivity| |].
  - split; [exact Hexit|]. unfold negative_delay_run. rewrite Hrep.
    vm_compute. reflexivity.
  - vm_compute in Hexit. discriminate Hexit.
Defined.

(** X14.  The delay between messages is run at most once for a recipient
    and never for the last one, so a run over [n] recipients waits at most
    [n - 1] times. *)
Theorem delay_only_between_recipients {Dev : Type} `{ViewClient Dev}
    (draft delete : bool) (delay : Z) (message : string)
    (phone_numbers : list string) (d : Dev) :
  (waits (trace_of (main_loop draft delete delay message 0 (length phone_numbers)
                              phone_numbers 0 d))
   <= length phone_numbers - 1)%nat
  /\ forall i n phone_number c d0,
       let pass := trace_of (process_recipient draft delete delay message
                                               i n phone_number c d0) in
       (waits pass <= 1)%nat
       /\ (if decide (n <= S i)%nat then waits pass = 0%nat else True).
Proof.
  split.
  - destruct (main_loop_waits draft delete delay message phone_numbers 0
                (length phone_numbers) 0 d) as [Hle _]. lia.
  - intros i n phone_number c d0 pass.
    destruct (process_recipient_waits draft delete delay message i n phone_number c d0)
      as [Hle Hlast].
    split; [exact Hle|]. case_decide; auto.
Qed.

(** X15.  With a negative delay, every recipient but the last is reported
    as failed, whether or not its message went out: after a completed send
    [time.sleep] rejects the delay, the exception lands in the handler of the
    loop, and the send stays counted as a success. *)
Theorem negative_delay_reports_failure {Dev : Type} `{ViewClient Dev}
    (draft delete : bool) (delay : Z) (message : string)
    (i n : nat) (phone_number : string) (c : nat) (d : Dev) :
  delay < 0 ->
  (S i < n)%nat ->
  let pass := process_recipient draft delete delay message i n phone_number c d in
  failed_recipients (trace_of pass) = [phone_number]
  /\ match result_of pass with
     | Ok c' => c' = (c + sends_completed (trace_of pass))%nat
     | Raise _ => True
     end.
Proof.
  intros Hdelay Hi pass. split.
  - apply (process_recipient_negative draft delete delay message i n phone_number c
             Hdelay Hi d).
  - destruct (process_recipient_post draft delete delay message i n phone_number c d)
      as (_ & _ & _ & _ & Hc & _).
    fold pass in Hc. destruct (result_of pass); [by apply Hc|done].
Qed.

Lemma negative_delay_reports_failure_witness :
  let pass := @process_recipient nat (simulated working) false false (-1) "hello"
                                 0 2 "+1001" 0 0%nat in
  failed_recipients (trace_of pass) = ["+1001"]
  /\ sends_completed (trace_of pass) = 1%nat
  /\ result_of pass = Ok 1%nat.
Proof.
  intros pass.
  destruct (@negative_delay_reports_failure nat (simulated working) false false (-1)
              "hello" 0 2 "+1001" 0 0%nat) as [Hfailed _]; [lia|lia|].
  split; [exact Hfailed|]. split; vm_compute; reflexivity.
Defined.

(** X16.  A run opens at most one connection and launches the application
    at most once, and it has done both exactly once by the time it takes up
    its first recipient: neither a retry nor a recovery ever reconnects or
    relaunches. *)
Theorem connects_and_launches_once `{PhoneNumbers} {Dev : Type} `{ViewClient Dev}
    (fs : filesystem) (serialno : option string) (draft delete : bool) (delay : Z)
    (d : Dev) :
  let t := snd (fst (main fs serialno draft delete delay d)) in
  (connections t <= 1)%nat
  /\ (launches t <= 1)%nat
  /\ match processed t with
     | [] => True
     | _ :: _ => connections t = 1%nat /\ launches t = 1%nat
     end.
Proof.
  intros t. subst t. unfold main.
  destruct (get_phone_numbers fs "numbers.txt") as [phone_numbers|code err];
    [|vm_compute; split_and!; done || lia].
  destruct (get_message fs "content.txt") as [message|code err];
    [|vm_compute; split_and!; done || lia].
  pose proof (run_starts serialno draft delete delay message phone_numbers d) as Hrun.
  unfold trace_of in Hrun.
  destruct (run serialno draft delete delay message phone_numbers d) as [[d' t] [c|e]];
    cbn [fst snd] in *.
  - exact Hrun.
  - unfold connections, launches, processed in *. cbv zeta.
    rewrite !List.filter_app, !length_app, !collect_app. simpl.
    rewrite app_nil_r, !Nat.add_0_r. exact Hrun.
Qed.

Section RunEvents.
Context {Dev : Type} `{ViewClient Dev}.

Lemma run_event_navigation (phone_numbers : list string) (message : string) :
  emits (run_event phone_numbers message) go_back_to_main_screen.
Proof.
  eapply emits_mono; [|apply go_back_navigation_events].
  intros [] Hev; simpl in *; tauto.
Qed.

Lemma run_event_cleanup (phone_numbers : list string) (message : string) :
  emits (run_event phone_numbers message) delete_last_sms.
Proof.
  eapply emits_mono; [|apply delete_last_sms_cleanup_events].
  intros [] Hev; simpl in *; tauto.
Qed.

Lemma run_event_compose (phone_numbers : list string) (message : string)
    (draft : bool) (phone_number : string) :
  phone_number ∈ phone_numbers ->
  emits (run_event phone_numbers message) (send_sms phone_number message draft).
Proof.
  intros Hin. eapply emits_mono.
  2:{ apply (send_sms_loop_emits phone_number message _ draft (seq 0 max_retries)).
      intros attempt. apply attempt_step_compose. }
  intros [] Hev; simpl in *; try tauto.
  destruct Hev as [->|[->|[->|[->| ->]]]]; eauto 10.
Qed.

End RunEvents.

(** X17.  The only shell commands a whole run sends are the launch of the
    application, the CTRL+A, ENTER and BACK key events, the text of the
    loaded message and the digits of a loaded recipient; the only drag is
    the long press.  Nothing is typed that is not in the two input files. *)
Theorem run_types_only_inputs `{PhoneNumbers} {Dev : Type} `{ViewClient Dev}
    (fs : filesystem) (serialno : option string) (draft delete : bool) (delay : Z)
    (phone_numbers : list string) (message : string) (d : Dev) :
  get_phone_numbers fs "numbers.txt" = Loaded phone_numbers ->
  get_message fs "content.txt" = Loaded message ->
  Forall (run_event phone_numbers message)
         (snd (fst (main fs serialno draft delete delay d))).
Proof.
  intros Hnum Hmsg. unfold main. rewrite Hnum, Hmsg.
  assert (Hrun : emits (run_event phone_numbers message)
                       (run serialno draft delete delay message phone_numbers)).
  { apply run_emits; simpl; auto.
    - apply run_event_navigation.
    - apply run_event_cleanup.
    - intros p Hp. by apply run_event_compose. }
  specialize (Hrun d). unfold trace_of in Hrun. simpl in Hrun.
  destruct (run serialno draft delete delay message phone_numbers d) as [[d' t] [c|e]];
    cbn [fst snd] in *.
  - by repeat constructor.
  - repeat (constructor; [done|]). apply Forall_app. split; [done|].
    by repeat constructor.
Qed.

Lemma run_types_only_inputs_witness :
  Forall (run_event ["+1001"; "+1002"; "+1003"; "+1004"; "+1005"] "hello")
         (snd (fst five_recipients_run)).
Proof.
  apply (@run_types_only_inputs toy_phonenumbers nat (simulated (rejects "1003"))
           (files (Some five_numbers) (Some ["hello"])) None false false 5);
    vm_compute; reflexivity.
Defined.
